(** * A shallow embedding of the PowerDNS client (package [powerdns])

    The development follows [vendor/github.com/dmportella/powerdns/powerdns.go].
    Go strings are byte sequences and are modelled by [string]; Go [int]s are
    modelled by [Z]; a Go slice is modelled by [slice], which keeps the
    difference between a nil slice and an empty one. *)

From Stdlib Require Import String Ascii List ZArith Lia Bool Arith.
From Stdlib Require Import DecimalString.
Import ListNotations.
Local Open Scope string_scope.

(* ================================================================= *)
(** ** Go values: errors, results, slices *)

(** A Go [error] is identified with the text its [Error()] method returns. *)
Definition error := string.

(** Outcome of a Go function that returns [(T, error)]: [Ok v] stands for
    [(v, nil)], [Err e] for [(zero, e)], and [Panic] for a run-time panic
    (a nil pointer dereference). *)
Inductive result (A : Type) : Type :=
| Ok (a : A)
| Err (e : error)
| Panic.
Arguments Ok {A} a.
Arguments Err {A} e.
Arguments Panic {A}.

(** A slice: [None] is the nil slice, [Some l] a non-nil slice holding [l]. *)
Definition slice (A : Type) : Type := option (list A).

Definition elems {A : Type} (s : slice A) : list A :=
  match s with
  | None => []
  | Some l => l
  end.

Definition len {A : Type} (s : slice A) : nat := List.length (elems s).

Definition is_nil {A : Type} (s : slice A) : bool :=
  match s with
  | None => true
  | Some _ => false
  end.

(** [append(s, x)]: the result is never nil. *)
Definition append {A : Type} (s : slice A) (x : A) : slice A :=
  Some (elems s ++ [x])%list.

(** [make([]T, 0, n)]: empty and not nil. *)
Definition make0 {A : Type} : slice A := Some [].

(** The slice expressions [s[:m]] and [s[m:]] on strings, for [m <= len(s)]
    (Go panics beyond that; no call below leaves the range). *)
Fixpoint slice_to (m : nat) (s : string) : string :=
  match m, s with
  | S m', String a s' => String a (slice_to m' s')
  | _, _ => EmptyString
  end.

Fixpoint slice_from (m : nat) (s : string) : string :=
  match m, s with
  | S m', String _ s' => slice_from m' s'
  | _, _ => s
  end.

(* ================================================================= *)
(** ** Package [unicode/utf8] *)

Module utf8.

Definition RuneError : Z := 0xFFFD.
Definition RuneSelf : Z := 0x80.

Definition byteZ (b : ascii) : Z := Z.of_N (N_of_ascii b).
Definition byte_of (z : Z) : ascii := ascii_of_N (Z.to_N (z mod 256)).

Definition between (lo hi b : Z) : bool := (lo <=? b)%Z && (b <=? hi)%Z.

(** The tables [first] and [acceptRanges]: for a lead byte, the length of
    the sequence and the range the second byte must lie in; [None] is the
    entry [xx] of an invalid lead byte.  ASCII bytes are handled before the
    table is consulted. *)
Definition first (s0 : Z) : option (nat * (Z * Z)) :=
  if between 0xC2 0xDF s0 then Some (2, (0x80, 0xBF)%Z)
  else if (s0 =? 0xE0)%Z then Some (3, (0xA0, 0xBF)%Z)
  else if between 0xE1 0xEC s0 then Some (3, (0x80, 0xBF)%Z)
  else if (s0 =? 0xED)%Z then Some (3, (0x80, 0x9F)%Z)
  else if between 0xEE 0xEF s0 then Some (3, (0x80, 0xBF)%Z)
  else if (s0 =? 0xF0)%Z then Some (4, (0x90, 0xBF)%Z)
  else if between 0xF1 0xF3 s0 then Some (4, (0x80, 0xBF)%Z)
  else if (s0 =? 0xF4)%Z then Some (4, (0x80, 0x8F)%Z)
  else None.

Definition cont (b : Z) : bool := between 0x80 0xBF b.
Definition low6 (b : Z) : Z := Z.land b 0x3F.

(** [utf8.DecodeRuneInString(s)]: the first rune of [s] and its width in
    bytes; [(RuneError, 1)] on an invalid encoding, [(RuneError, 0)] on the
    empty string. *)
Definition DecodeRuneInString (s : string) : Z * nat :=
  match s with
  | EmptyString => (RuneError, 0)
  | String b0 t0 =>
      let s0 := byteZ b0 in
      if (s0 <? RuneSelf)%Z then (s0, 1)
      else
        match first s0 with
        | None => (RuneError, 1)
        | Some (sz, (lo, hi)) =>
            if (String.length s <? sz)%nat then (RuneError, 1)
            else
              match t0 with
              | EmptyString => (RuneError, 1)
              | String b1 t1 =>
                  let s1 := byteZ b1 in
                  if negb (between lo hi s1) then (RuneError, 1)
                  else if (sz <=? 2)%nat then
                    (Z.lor (Z.shiftl (Z.land s0 0x1F) 6) (low6 s1), 2)
                  else
                    match t1 with
                    | EmptyString => (RuneError, 1)
                    | String b2 t2 =>
                        let s2 := byteZ b2 in
                        if negb (cont s2) then (RuneError, 1)
                        else if (sz <=? 3)%nat then
                          (Z.lor (Z.lor (Z.shiftl (Z.land s0 0x0F) 12)
                                        (Z.shiftl (low6 s1) 6))
                                 (low6 s2), 3)
                        else
                          match t2 with
                          | EmptyString => (RuneError, 1)
                          | String b3 _ =>
                              let s3 := byteZ b3 in
                              if negb (cont s3) then (RuneError, 1)
                              else
                                (Z.lor (Z.lor (Z.lor
                                   (Z.shiftl (Z.land s0 0x07) 18)
                                   (Z.shiftl (low6 s1) 12))
                                   (Z.shiftl (low6 s2) 6))
                                   (low6 s3), 4)
                          end
                    end
              end
        end
  end.

(** [utf8.ValidRune(r)]: in range and not a surrogate half. *)
Definition ValidRune (r : Z) : bool :=
  between 0 0xD7FF r || between 0xE000 0x10FFFF r.

(** The three bytes EF BF BD that encode [RuneError]. *)
Definition RuneErrorBytes : string :=
  String (byte_of 0xEF) (String (byte_of 0xBF) (String (byte_of 0xBD) EmptyString)).

(** [utf8.AppendRune(nil, r)]: the UTF-8 encoding of [r]; an invalid rune is
    encoded as [RuneError]. *)
Definition EncodeRune (r : Z) : string :=
  let tail (x : Z) := byte_of (Z.lor 0x80 (low6 x)) in
  if (r <? 0)%Z then RuneErrorBytes
  else if (r <=? 0x7F)%Z then String (byte_of r) EmptyString
  else if (r <=? 0x7FF)%Z then
    String (byte_of (Z.lor 0xC0 (Z.shiftr r 6))) (String (tail r) EmptyString)
  else if negb (ValidRune r) then RuneErrorBytes
  else if (r <=? 0xFFFF)%Z then
    String (byte_of (Z.lor 0xE0 (Z.shiftr r 12)))
      (String (tail (Z.shiftr r 6)) (String (tail r) EmptyString))
  else
    String (byte_of (Z.lor 0xF0 (Z.shiftr r 18)))
      (String (tail (Z.shiftr r 12))
         (String (tail (Z.shiftr r 6)) (String (tail r) EmptyString))).

(** [utf8.RuneCountInString(s)]: the number of steps [DecodeRuneInString]
    takes to consume [s]; each step consumes at least one byte, so
    [len(s)] rounds are enough. *)
Fixpoint RuneCount_loop (fuel : nat) (s : string) : nat :=
  match fuel with
  | O => 0
  | S fuel' =>
      match s with
      | EmptyString => 0
      | String _ _ =>
          S (RuneCount_loop fuel' (slice_from (snd (DecodeRuneInString s)) s))
      end
  end.

Definition RuneCountInString (s : string) : nat :=
  RuneCount_loop (String.length s) s.

End utf8.

(* ================================================================= *)
(** ** Package [strings] *)

Module strings.

(** [strings.HasPrefix(s, prefix)]. *)
Fixpoint HasPrefix (s prefix : string) {struct prefix} : bool :=
  match prefix with
  | EmptyString => true
  | String a prefix' =>
      match s with
      | EmptyString => false
      | String b s' => Ascii.eqb a b && HasPrefix s' prefix'
      end
  end.

(** [strings.Index(s, substr)]: offset of the leftmost occurrence; [None]
    stands for Go's [-1]. *)
Fixpoint Index (s substr : string) : option nat :=
  if HasPrefix s substr then Some 0
  else match s with
       | EmptyString => None
       | String _ s' => option_map S (Index s' substr)
       end.

(** [strings.Contains(s, substr)] is [Index(s, substr) >= 0]. *)
Definition Contains (s substr : string) : bool :=
  match Index s substr with
  | Some _ => true
  | None => false
  end.

(** The last byte of a string, if it has one. *)
Fixpoint lastByte (s : string) : option ascii :=
  match s with
  | EmptyString => None
  | String a EmptyString => Some a
  | String _ s' => lastByte s'
  end.

(** [strings.Count(s, substr)] for a non-empty [substr] (for a single byte
    Go counts the byte, with the same result): the loop
    [for { i := Index(s, substr); if i == -1 { return n }; n++;
    s = s[i+len(substr):] }], which counts occurrences from the left without
    overlap.  Every round removes at least one byte, so [len(s)] rounds are
    enough.  For the empty [substr] Go returns the rune count plus one. *)
Fixpoint Count_loop (fuel : nat) (s substr : string) (n : nat) : nat :=
  match fuel with
  | O => n
  | S fuel' =>
      match Index s substr with
      | None => n
      | Some i =>
          Count_loop fuel' (slice_from (i + String.length substr) s) substr (S n)
      end
  end.

Definition Count (s substr : string) : nat :=
  match substr with
  | EmptyString => utf8.RuneCountInString s + 1
  | String _ _ => Count_loop (String.length s) s substr 0
  end.

(** [explode(s, -1)]: [s] cut into its UTF-8 sequences. *)
Fixpoint explode_loop (k : nat) (s : string) : list string :=
  match k with
  | O => [s]
  | S k' =>
      let size := snd (utf8.DecodeRuneInString s) in
      slice_to size s :: explode_loop k' (slice_from size s)
  end.

Definition explode (s : string) : list string :=
  match utf8.RuneCountInString s with
  | O => []
  | S k => explode_loop k s
  end.

(** The loop of [genSplit(s, sep, 0, n)] with [k = n - 1] rounds left:
    [for i < n { m := Index(s, sep); if m < 0 { break }; a[i] = s[:m];
    s = s[m+len(sep):]; i++ }; a[i] = s]. *)
Fixpoint genSplit_loop (k : nat) (s sep : string) : list string :=
  match k with
  | O => [s]
  | S k' =>
      match Index s sep with
      | None => [s]
      | Some m =>
          slice_to m s :: genSplit_loop k' (slice_from (m + String.length sep) s) sep
      end
  end.

(** [strings.Split(s, sep)], that is [genSplit(s, sep, 0, -1)]. *)
Definition Split (s sep : string) : list string :=
  match sep with
  | EmptyString => explode s
  | String _ _ =>
      let n := Nat.min (Count s sep + 1) (String.length s + 1) in
      genSplit_loop (n - 1) s sep
  end.

(** [strings.Join(elems, sep)]. *)
Fixpoint Join (elems : list string) (sep : string) : string :=
  match elems with
  | [] => EmptyString
  | [e] => e
  | e :: rest => e ++ sep ++ Join rest sep
  end.

End strings.


(* ================================================================= *)
(** ** Package [path] *)

Module path.

(** The elements of a path: the pieces between slashes. *)
Fixpoint elements (p : string) : list string :=
  match p with
  | EmptyString => [EmptyString]
  | String c p' =>
      if Ascii.eqb c "/" then EmptyString :: elements p'
      else
        match elements p' with
        | e :: es => String c e :: es
        | [] => [String c EmptyString]
        end
  end.

(** One element processed by [path.Clean]; [out] holds the elements written
    so far, last one first.  Empty and [.] elements are dropped; a [..]
    element removes the element before it, is dropped at the root of a rooted
    path, and is kept at the start of a relative one. *)
Definition clean_step (rooted : bool) (out : list string) (e : string)
  : list string :=
  if String.eqb e EmptyString || String.eqb e "." then out
  else if String.eqb e ".." then
    match out with
    | top :: rest =>
        if String.eqb top ".." then e :: out else rest
    | [] => if rooted then [] else [e]
    end
  else e :: out.

(** [path.Clean(p)], by the rules its documentation gives: slashes are
    collapsed, [.] elements removed, inner [..] elements removed with the
    element before them, [/..] at the root replaced by [/]; the empty result
    is [.]. *)
Definition Clean (p : string) : string :=
  match p with
  | EmptyString => "."
  | String c _ =>
      let rooted := Ascii.eqb c "/" in
      let out := rev (fold_left (clean_step rooted) (elements p) []) in
      if rooted then "/" ++ strings.Join out "/"
      else
        match out with
        | [] => "."
        | _ :: _ => strings.Join out "/"
        end
  end.

(** [path.Join(elem...)]: the non-empty elements joined by slashes, then
    cleaned; the empty string when every element is empty. *)
Definition Join (elem : list string) : string :=
  match filter (fun e => negb (String.eqb e EmptyString)) elem with
  | [] => EmptyString
  | es => Clean (strings.Join es "/")
  end.

End path.

(* ================================================================= *)
(** ** Package [strconv] *)

(** The Unicode tables behind [strconv.IsPrint] for runes above U+00FF
    ([isPrint16], [isNotPrint16], [isPrint32], [isNotPrint32]) are data of
    the Go distribution; the development is parametric in them. *)
Class UnicodeTables : Type := { isPrintWide : Z -> bool }.

Module strconv.

(** [strconv.Itoa(i)]: the decimal text of [i]. *)
Definition Itoa (i : Z) : string := NilZero.string_of_int (Z.to_int i).

(** [lowerhex[d]] for [0 <= d < 16]. *)
Definition lowerhex (d : Z) : ascii :=
  match String.get (Z.to_nat d) "0123456789abcdef" with
  | Some c => c
  | None => "0"%char
  end.

(** [strconv.IsPrint(r)]. *)
Definition IsPrint {U : UnicodeTables} (r : Z) : bool :=
  if (r <=? 0xFF)%Z then
    if utf8.between 0x20 0x7E r then true
    else if utf8.between 0xA1 0xFF r then negb (r =? 0xAD)%Z
    else false
  else isPrintWide r.

(** The hex digits of [r] from bit [4 * n - 4] down to bit 0. *)
Fixpoint hexdigits (n : nat) (r : Z) : string :=
  match n with
  | O => EmptyString
  | S n' =>
      String (lowerhex (Z.land (Z.shiftr r (4 * Z.of_nat n')) 0xF)) (hexdigits n' r)
  end.

Definition backslash : ascii := ascii_of_nat 92.
Definition dquote : ascii := ascii_of_nat 34.

(** [appendEscapedRune] for the double quote as quote character, with
    [ASCIIonly] and [graphicOnly] both false. *)
Definition appendEscapedRune {U : UnicodeTables} (r : Z) : string :=
  if (r =? 34)%Z || (r =? 92)%Z then
    String backslash (String (utf8.byte_of r) EmptyString)
  else if IsPrint r then utf8.EncodeRune r
  else if (r =? 7)%Z then "\a"
  else if (r =? 8)%Z then "\b"
  else if (r =? 12)%Z then "\f"
  else if (r =? 10)%Z then "\n"
  else if (r =? 13)%Z then "\r"
  else if (r =? 9)%Z then "\t"
  else if (r =? 11)%Z then "\v"
  else if (r <? 32)%Z || (r =? 0x7F)%Z then
    "\x" ++ hexdigits 2 (utf8.byteZ (utf8.byte_of r))
  else if negb (utf8.ValidRune r) then "\u" ++ hexdigits 4 utf8.RuneError
  else if (r <? 0x10000)%Z then "\u" ++ hexdigits 4 r
  else "\U" ++ hexdigits 8 r.

(** The loop of [appendQuotedWith]: one rune of [s] per round; every round
    consumes at least one byte, so [len(s)] rounds are enough. *)
Fixpoint quote_loop {U : UnicodeTables} (fuel : nat) (s : string) : string :=
  match fuel with
  | O => EmptyString
  | S fuel' =>
      match s with
      | EmptyString => EmptyString
      | String b _ =>
          let s0 := utf8.byteZ b in
          let rw := if (s0 >=? utf8.RuneSelf)%Z
                    then utf8.DecodeRuneInString s else (s0, 1) in
          (if (snd rw =? 1)%nat && (fst rw =? utf8.RuneError)%Z
           then "\x" ++ hexdigits 2 s0
           else appendEscapedRune (fst rw))
          ++ quote_loop fuel' (slice_from (snd rw) s)
      end
  end.

(** [strconv.Quote(s)], which is what the verb [%q] of package [fmt] prints
    for a string. *)
Definition Quote {U : UnicodeTables} (s : string) : string :=
  String dquote (quote_loop (String.length s) s ++ String dquote EmptyString).

End strconv.

(* ================================================================= *)
(** ** Packages [net/url], [net/http] and [encoding/json]

    The client only calls into these packages; their code is not part of the
    repository.  Their data types are spelled out, and the functions the
    client calls are the methods of the classes below. *)

Module url.

Record Userinfo : Type := {
  username : string;
  password : string;
  passwordSet : bool
}.

(** [url.URL]. *)
Record URL : Type := {
  Scheme : string;
  Opaque : string;
  User : option Userinfo;
  Host : string;
  Path : string;
  RawPath : string;
  ForceQuery : bool;
  RawQuery : string;
  Fragment : string;
  RawFragment : string
}.

(** The assignment [u.Path = p]. *)
Definition set_Path (u : URL) (p : string) : URL :=
  {| Scheme := Scheme u; Opaque := Opaque u; User := User u; Host := Host u;
     Path := p; RawPath := RawPath u; ForceQuery := ForceQuery u;
     RawQuery := RawQuery u; Fragment := Fragment u;
     RawFragment := RawFragment u |}.

End url.

(** [url.Parse] and [URL.String]. *)
Class NetURL : Type := {
  url_Parse : string -> url.URL + error;
  url_String : url.URL -> string
}.

Module http.

(** What the client puts into an [http.Request]: the method, the URL text
    handed to [http.NewRequest], the header lines in the order they were
    added, and the body ([None] for a nil reader). *)
Record Request : Type := {
  Method : string;
  URL : string;
  Header : list (string * string);
  Body : option string
}.

(** What the client reads from an [http.Response]. *)
Record Response : Type := {
  StatusCode : Z;
  RespBody : string
}.

(** [req.Header.Add(key, value)]; the key is kept as the call writes it
    (net/http files it under its canonical MIME form). *)
Definition Header_Add (req : Request) (key value : string) : Request :=
  {| Method := Method req; URL := URL req;
     Header := (Header req ++ [(key, value)])%list; Body := Body req |}.

End http.

(** The HTTP side: [NewRequest_error method url] is the error with which
    [http.NewRequest] refuses a method and URL text, if it does;
    [roundTrip] is one exchange of [http.Client.Do] with a server whose
    state is of type [Server]. *)
Class NetHTTP : Type := {
  Server : Type;
  NewRequest_error : string -> string -> option error;
  roundTrip : http.Request -> Server -> (http.Response + error) * Server
}.

(* ================================================================= *)
(** ** The data model of package [powerdns] *)

(** [Record]: one resource record. *)
Record RecordT : Type := {
  rName : string;
  rType : string;
  rContent : string;
  rTTL : Z;
  rDisabled : bool
}.

(** [ResourceRecordSet]. *)
Record ResourceRecordSet : Type := {
  rrsName : string;
  rrsType : string;
  rrsChangeType : string;
  rrsTTL : Z;
  rrsRecords : slice RecordT
}.

(** [ZoneInfo]. *)
Record ZoneInfo : Type := {
  ziID : string;
  ziName : string;
  ziAccount : string;
  ziURL : string;
  ziLastCheck : Z;
  ziKind : string;
  ziDNSSec : bool;
  ziSerial : Z;
  ziNotifiedSerial : Z;
  ziMasters : slice string;
  ziRecords : slice RecordT;
  ziResourceRecordSets : slice ResourceRecordSet
}.

Record zonePatchRequest : Type := {
  RecordSets : slice ResourceRecordSet
}.

Record errorResponse : Type := {
  ErrorMsg : string
}.

(** [Client]; its [http] field is the transport, here the class [NetHTTP]. *)
Record Client : Type := {
  serverURL : string;
  apiKey : string;
  apiVersion : Z
}.

(** [json.Marshal] of a [zonePatchRequest] (it cannot fail on this type, and
    the client drops its error), and [json.NewDecoder(body).Decode] into the
    three types the client decodes. *)
Class EncodingJSON : Type := {
  Marshal : zonePatchRequest -> string;
  Decode_ZoneInfos : string -> slice ZoneInfo + error;
  Decode_ZoneInfo : string -> ZoneInfo + error;
  Decode_errorResponse : string -> errorResponse + error
}.

(* ================================================================= *)
(** ** Record identifiers *)

Definition IDSeparator : string := ":::".

(** [Record.ID]. *)
Definition Record_ID (record : RecordT) : string :=
  rName record ++ IDSeparator ++ rType record.

(** [ResourceRecordSet.ID]. *)
Definition ResourceRecordSet_ID (rrSet : ResourceRecordSet) : string :=
  rrsName rrSet ++ IDSeparator ++ rrsType rrSet.

(** [parseID]. *)
Definition parseID (recID : string) : result (string * string) :=
  match strings.Split recID IDSeparator with
  | [name; tpe] => Ok (name, tpe)
  | _ => Err "Unknown record ID format"
  end.

(* ================================================================= *)
(** ** The client

    A client method runs against a [World]: the state of the server, and the
    requests put on the wire so far.  [M A] is the state and error monad of
    such runs. *)

Section ClientCode.

Context {U : UnicodeTables} {N : NetURL} {H : NetHTTP} {J : EncodingJSON}.

Record World : Type := {
  wire : list http.Request;
  server : Server
}.

Definition M (A : Type) : Type := World -> result A * World.

Definition ret {A : Type} (a : A) : M A := fun w => (Ok a, w).

Definition fail {A : Type} (e : error) : M A := fun w => (Err e, w).

Definition bind {A B : Type} (c : M A) (k : A -> M B) : M B :=
  fun w =>
    match c w with
    | (Ok a, w') => k a w'
    | (Err e, w') => (Err e, w')
    | (Panic, w') => (Panic, w')
    end.

(** A call that does not touch the world. *)
Definition lift {A : Type} (r : result A) : M A := fun w => (r, w).

(** A library call that returns [(T, error)]. *)
Definition try {A : Type} (r : A + error) : M A :=
  match r with
  | inl a => ret a
  | inr e => fail e
  end.

(** [client.http.Do(req)]: the request goes on the wire and the server
    answers or the exchange fails. *)
Definition Do (req : http.Request) : M http.Response :=
  fun w =>
    let (r, sv) := roundTrip req (server w) in
    let w' := {| wire := (wire w ++ [req])%list; server := sv |} in
    match r with
    | inl resp => (Ok resp, w')
    | inr e => (Err e, w')
    end.

Notation "x <- c ;; k" := (bind c (fun x => k))
  (at level 61, c at next level, right associativity).

(** The URL a request is built for: the value of the local variable [url]
    of [newRequest] after its [Path] has been assigned.  The error of
    [url.Parse] is not looked at, so on a server URL that does not parse
    [url] is nil and the assignment panics. *)
Definition requestURL (client : Client) (endpoint : string) : result url.URL :=
  match url_Parse (serverURL client) with
  | inr _ => Panic
  | inl u =>
      if (apiVersion client >? 0)%Z then
        Ok (url.set_Path u
              (path.Join ["/api/v" ++ strconv.Itoa (apiVersion client); endpoint]))
      else
        Ok (url.set_Path u (path.Join [url.Path u; endpoint]))
  end.

(** [newRequest]. *)
Definition newRequest (client : Client) (method endpoint : string)
  (body : option string) : result http.Request :=
  match requestURL client endpoint with
  | Panic => Panic
  | Err e => Err e
  | Ok u =>
      match NewRequest_error method (url_String u) with
      | Some err => Err ("Error during creation of request: " ++ err)
      | None =>
          let req := {| http.Method := method; http.URL := url_String u;
                        http.Header := []; http.Body := body |} in
          let req := http.Header_Add req "X-API-Key" (apiKey client) in
          let req := http.Header_Add req "Accept" "application/json" in
          if negb (String.eqb method "GET") then
            Ok (http.Header_Add req "Content-Type" "application/json")
          else Ok req
      end
  end.

(** [detectapiVersion]; where Go returns [(-1, err)] the model returns
    [Err err]. *)
Definition detectapiVersion (client : Client) : M Z :=
  req <- lift (newRequest client "GET" "/api/v1/servers" None) ;;
  resp <- Do req ;;
  if (http.StatusCode resp =? 200)%Z then ret 1%Z else ret 0%Z.

(** The assignment [client.apiVersion = v]. *)
Definition set_apiVersion (client : Client) (v : Z) : Client :=
  {| serverURL := serverURL client; apiKey := apiKey client; apiVersion := v |}.

(** [NewClient]; the parameters are Go's [serverURL] and [apiKey]. *)
Definition NewClient (rawURL key : string) : M Client :=
  u <- try (url_Parse rawURL) ;;
  let u := url.set_Path u EmptyString in
  let client := {| serverURL := url_String u; apiKey := key; apiVersion := 0 |} in
  v <- detectapiVersion client ;;
  ret (set_apiVersion client v).

(** [fmt.Sprintf] with the format of the zone endpoint. *)
Definition zoneEndpoint (zone : string) : string :=
  "/servers/localhost/zones/" ++ zone.

(** [ListZones]. *)
Definition ListZones (client : Client) : M (slice ZoneInfo) :=
  req <- lift (newRequest client "GET" "/servers/localhost/zones" None) ;;
  resp <- Do req ;;
  zoneInfos <- try (Decode_ZoneInfos (http.RespBody resp)) ;;
  ret zoneInfos.

(** The inner loop of [ListRecords]: the members of one record set appended
    to [records]. *)
Definition flattenRecordSet (records : slice RecordT) (rrs : ResourceRecordSet)
  : slice RecordT :=
  fold_left
    (fun records record =>
       append records
         {| rName := rrsName rrs; rType := rrsType rrs;
            rContent := rContent record; rTTL := rrsTTL rrs;
            rDisabled := false |})
    (elems (rrsRecords rrs)) records.

(** The conversion of a decoded zone in [ListRecords]: both loops. *)
Definition flattenZone (zoneInfo : ZoneInfo) : slice RecordT :=
  fold_left flattenRecordSet (elems (ziResourceRecordSets zoneInfo))
    (ziRecords zoneInfo).

(** [ListRecords]. *)
Definition ListRecords (client : Client) (zone : string) : M (slice RecordT) :=
  req <- lift (newRequest client "GET" (zoneEndpoint zone) None) ;;
  resp <- Do req ;;
  zoneInfo <- try (Decode_ZoneInfo (http.RespBody resp)) ;;
  ret (flattenZone zoneInfo).

(** [ListRecordsAsRRSet]. *)
Definition ListRecordsAsRRSet (client : Client) (zone : string)
  : M (slice ResourceRecordSet) :=
  req <- lift (newRequest client "GET" (zoneEndpoint zone) None) ;;
  resp <- Do req ;;
  zoneInfo <- try (Decode_ZoneInfo (http.RespBody resp)) ;;
  if is_nil (ziResourceRecordSets zoneInfo)
     && (len (ziResourceRecordSets zoneInfo) =? 0)%nat
  then ret None
  else ret (ziResourceRecordSets zoneInfo).

(** The test [r.Name == name && r.Type == tpe]. *)
Definition matches (name tpe : string) (r : RecordT) : bool :=
  String.eqb (rName r) name && String.eqb (rType r) tpe.

(** [ListRecordsByNameAndType]. *)
Definition ListRecordsByNameAndType (client : Client) (zone name tpe : string)
  : M (slice RecordT) :=
  allRecords <- ListRecords client zone ;;
  ret (fold_left
         (fun records r => if matches name tpe r then append records r else records)
         (elems allRecords) make0).

(** [ListRecordsByID]. *)
Definition ListRecordsByID (client : Client) (zone recID : string)
  : M (slice RecordT) :=
  nt <- lift (parseID recID) ;;
  ListRecordsByNameAndType client zone (fst nt) (snd nt).

(** The loop of [RecordExists], which returns at the first match. *)
Fixpoint anyMatch (name tpe : string) (records : list RecordT) : bool :=
  match records with
  | [] => false
  | record :: rest => if matches name tpe record then true else anyMatch name tpe rest
  end.

(** [RecordExists]. *)
Definition RecordExists (client : Client) (zone name tpe : string) : M bool :=
  allRecords <- ListRecords client zone ;;
  ret (anyMatch name tpe (elems allRecords)).

(** [RecordExistsByID]. *)
Definition RecordExistsByID (client : Client) (zone recID : string) : M bool :=
  nt <- lift (parseID recID) ;;
  RecordExists client zone (fst nt) (snd nt).

(** The test [resp.StatusCode != 200 && resp.StatusCode != 204]. *)
Definition rejected (resp : http.Response) : bool :=
  negb (http.StatusCode resp =? 200)%Z && negb (http.StatusCode resp =? 204)%Z.

(** The body [CreateRecord] marshals. *)
Definition createPatch (record : RecordT) : zonePatchRequest :=
  {| RecordSets :=
       Some [ {| rrsName := rName record; rrsType := rType record;
                 rrsChangeType := "REPLACE"; rrsTTL := 0;
                 rrsRecords := Some [record] |} ] |}.

(** [CreateRecord]. *)
Definition CreateRecord (client : Client) (zone : string) (record : RecordT)
  : M string :=
  let reqBody := Marshal (createPatch record) in
  req <- lift (newRequest client "PATCH" (zoneEndpoint zone) (Some reqBody)) ;;
  resp <- Do req ;;
  if rejected resp then
    match Decode_errorResponse (http.RespBody resp) with
    | inr _ => fail ("Error creating record: " ++ Record_ID record)
    | inl errorResp =>
        fail ("Error creating record: " ++ Record_ID record ++ ", reason: "
              ++ strconv.Quote (ErrorMsg errorResp))
    end
  else ret (Record_ID record).

(** The assignment [rrSet.ChangeType = v]. *)
Definition set_ChangeType (rrSet : ResourceRecordSet) (v : string)
  : ResourceRecordSet :=
  {| rrsName := rrsName rrSet; rrsType := rrsType rrSet; rrsChangeType := v;
     rrsTTL := rrsTTL rrSet; rrsRecords := rrsRecords rrSet |}.

(** [ReplaceRecordSet]. *)
Definition ReplaceRecordSet (client : Client) (zone : string)
  (rrSet : ResourceRecordSet) : M string :=
  let rrSet := set_ChangeType rrSet "REPLACE" in
  let reqBody := Marshal {| RecordSets := Some [rrSet] |} in
  req <- lift (newRequest client "PATCH" (zoneEndpoint zone) (Some reqBody)) ;;
  resp <- Do req ;;
  if rejected resp then
    match Decode_errorResponse (http.RespBody resp) with
    | inr _ => fail ("Error creating record set: " ++ ResourceRecordSet_ID rrSet)
    | inl errorResp =>
        fail ("Error creating record set: " ++ ResourceRecordSet_ID rrSet
              ++ ", reason: " ++ strconv.Quote (ErrorMsg errorResp))
    end
  else ret (ResourceRecordSet_ID rrSet).

(** The body [DeleteRecordSet] marshals: the [Records] field is left nil. *)
Definition deletePatch (name tpe : string) : zonePatchRequest :=
  {| RecordSets :=
       Some [ {| rrsName := name; rrsType := tpe; rrsChangeType := "DELETE";
                 rrsTTL := 0; rrsRecords := None |} ] |}.

(** [DeleteRecordSet]; [Ok tt] stands for the nil error. *)
Definition DeleteRecordSet (client : Client) (zone name tpe : string) : M unit :=
  let reqBody := Marshal (deletePatch name tpe) in
  req <- lift (newRequest client "PATCH" (zoneEndpoint zone) (Some reqBody)) ;;
  resp <- Do req ;;
  if rejected resp then
    match Decode_errorResponse (http.RespBody resp) with
    | inr _ => fail ("Error deleting record: " ++ name ++ " " ++ tpe)
    | inl errorResp =>
        fail ("Error deleting record: " ++ name ++ " " ++ tpe ++ ", reason: "
              ++ strconv.Quote (ErrorMsg errorResp))
    end
  else ret tt.

(** [DeleteRecordSetByID]. *)
Definition DeleteRecordSetByID (client : Client) (zone recID : string) : M unit :=
  nt <- lift (parseID recID) ;;
  DeleteRecordSet client zone (fst nt) (snd nt).

End ClientCode.

(* ================================================================= *)
(** ** A test double

    Instances of the library classes that are small enough to run: a URL
    syntax of the shape [scheme://host/path], a transport that plays back a
    script of answers, and decoders that know a few bodies.  They serve to
    run the client on concrete inputs. *)

Module Fixture.

Definition tables : UnicodeTables := {| isPrintWide := fun _ => false |}.

Definition parse (s : string) : url.URL + error :=
  if strings.Contains s " " then inr "invalid character in host name"
  else
    let mk sch host p :=
      {| url.Scheme := sch; url.Opaque := EmptyString; url.User := None;
         url.Host := host; url.Path := p; url.RawPath := EmptyString;
         url.ForceQuery := false; url.RawQuery := EmptyString;
         url.Fragment := EmptyString; url.RawFragment := EmptyString |} in
    match strings.Index s "://" with
    | None => inl (mk EmptyString EmptyString s)
    | Some i =>
        let rest := slice_from (i + 3) s in
        match strings.Index rest "/" with
        | None => inl (mk (slice_to i s) rest EmptyString)
        | Some j => inl (mk (slice_to i s) (slice_to j rest) (slice_from j rest))
        end
    end.

Definition print (u : url.URL) : string :=
  match url.Scheme u with
  | EmptyString => url.Path u
  | String _ _ => url.Scheme u ++ "://" ++ url.Host u ++ url.Path u
  end.

Definition neturl : NetURL := {| url_Parse := parse; url_String := print |}.

(** The server is a script: each exchange consumes its next answer; when
    the script is over the connection is refused. *)
Definition script : Type := list (http.Response + error).

Definition play (req : http.Request) (sv : script)
  : (http.Response + error) * script :=
  match sv with
  | [] => (inr "connection refused", [])
  | answer :: rest => (answer, rest)
  end.

Definition nethttp : NetHTTP :=
  {| Server := script;
     NewRequest_error := fun method _ =>
       if strings.Contains method " " then Some "net/http: invalid method"
       else None;
     roundTrip := play |}.

Definition legacyA : RecordT :=
  {| rName := "old.example.org."; rType := "A"; rContent := "192.0.2.1";
     rTTL := 300; rDisabled := false |}.

Definition member (content : string) (disabled : bool) : RecordT :=
  {| rName := EmptyString; rType := EmptyString; rContent := content;
     rTTL := 0; rDisabled := disabled |}.

Definition wwwSet : ResourceRecordSet :=
  {| rrsName := "www.example.org."; rrsType := "A"; rrsChangeType := EmptyString;
     rrsTTL := 60;
     rrsRecords := Some [member "192.0.2.7" false; member "192.0.2.8" true] |}.

Definition mailSet : ResourceRecordSet :=
  {| rrsName := "example.org."; rrsType := "MX"; rrsChangeType := EmptyString;
     rrsTTL := 3600; rrsRecords := Some [member "10 mail.example.org." false] |}.

Definition zone (records : slice RecordT) (rrsets : slice ResourceRecordSet)
  : ZoneInfo :=
  {| ziID := "example.org."; ziName := "example.org."; ziAccount := EmptyString;
     ziURL := "/api/v1/servers/localhost/zones/example.org."; ziLastCheck := 0;
     ziKind := "Native"; ziDNSSec := false; ziSerial := 2024010101;
     ziNotifiedSerial := 0; ziMasters := None;
     ziRecords := records; ziResourceRecordSets := rrsets |}.

(** The bodies the decoders know: [zone:mixed], [zone:bare], [zone:empty],
    and [error:] followed by the reason. *)
Definition decodeZone (body : string) : ZoneInfo + error :=
  if String.eqb body "zone:mixed" then inl (zone (Some [legacyA]) (Some [wwwSet; mailSet]))
  else if String.eqb body "zone:bare" then inl (zone None None)
  else if String.eqb body "zone:empty" then inl (zone None (Some []))
  else inr "invalid character looking for beginning of value".

Definition decodeError (body : string) : errorResponse + error :=
  if strings.HasPrefix body "error:" then inl {| ErrorMsg := slice_from 6 body |}
  else inr "invalid character looking for beginning of value".

(** The marshalled text is only compared, never read back: the double
    renders the parts of the patch in a line. *)
Definition renderSet (rrs : ResourceRecordSet) : string :=
  rrsChangeType rrs ++ " " ++ rrsName rrs ++ " " ++ rrsType rrs ++ " ["
  ++ strings.Join (map rContent (elems (rrsRecords rrs))) ", " ++ "]".

Definition marshal (p : zonePatchRequest) : string :=
  "rrsets: " ++ strings.Join (map renderSet (elems (RecordSets p))) "; ".

Definition json : EncodingJSON :=
  {| Marshal := marshal;
     Decode_ZoneInfos := fun _ => inl None;
     Decode_ZoneInfo := decodeZone;
     Decode_errorResponse := decodeError |}.

(** A world whose server will give the answers [answers]. *)
Definition world (answers : script) : World (H := nethttp) :=
  @Build_World nethttp [] answers.

Definition answer (status : Z) (body : string) : http.Response + error :=
  inl {| http.StatusCode := status; http.RespBody := body |}.


(** The probe of [detectapiVersion], and the PATCH of a zone with a body. *)
Definition probe : http.Request :=
  {| http.Method := "GET"; http.URL := "http://10.44.17.104:8100/api/v1/servers";
     http.Header := [("X-API-Key", "changeme"); ("Accept", "application/json")];
     http.Body := None |}.

Definition patch (body : string) : http.Request :=
  {| http.Method := "PATCH";
     http.URL := "http://10.44.17.104:8100/api/v1/servers/localhost/zones/example.org.";
     http.Header := [("X-API-Key", "changeme"); ("Accept", "application/json");
                     ("Content-Type", "application/json")];
     http.Body := Some body |}.

Definition v1 : Client :=
  {| serverURL := "http://10.44.17.104:8100"; apiKey := "changeme"; apiVersion := 1 |}.

Definition v0 : Client :=
  {| serverURL := "http://10.44.17.104:8100"; apiKey := "changeme"; apiVersion := 0 |}.

End Fixture.

(* ================================================================= *)
(** ** Vocabulary of the statements *)

Section Vocabulary.

Context {U : UnicodeTables} {N : NetURL} {H : NetHTTP} {J : EncodingJSON}.

(** In world [w] the server answers the client's request for [zone] with a
    body that decodes to [zoneInfo]. *)
Definition zoneAnswer (client : Client) (zone : string) (w : World)
  (zoneInfo : ZoneInfo) : Prop :=
  exists req resp sv,
    newRequest client "GET" (zoneEndpoint zone) None = Ok req
    /\ roundTrip req (server w) = (inl resp, sv)
    /\ Decode_ZoneInfo (http.RespBody resp) = inl zoneInfo.

(** The members of the record sets of a zone, each with its set, in the
    listed order of the sets and of the members of each set. *)
Definition members (zoneInfo : ZoneInfo) : list (ResourceRecordSet * RecordT) :=
  flat_map (fun rrs => map (pair rrs) (elems (rrsRecords rrs)))
    (elems (ziResourceRecordSets zoneInfo)).

(** A flat record that has its name, type and TTL from a record set and its
    content from a member of the set. *)
Definition inherits (sm : ResourceRecordSet * RecordT) (r : RecordT) : Prop :=
  rName r = rrsName (fst sm) /\ rType r = rrsType (fst sm)
  /\ rTTL r = rrsTTL (fst sm) /\ rContent r = rContent (snd sm).

(** Name and type equal byte for byte. *)
Definition sameNameAndType (name tpe : string) (r : RecordT) : bool :=
  if string_dec (rName r) name
  then if string_dec (rType r) tpe then true else false
  else false.




(** Bytes that [strconv.Quote] leaves as they are: printable ASCII other
    than the double quote and the backslash. *)
Definition plainByte (b : ascii) : bool :=
  let z := utf8.byteZ b in
  utf8.between 0x20 0x7E z && negb (z =? 34)%Z && negb (z =? 92)%Z.

Fixpoint plainText (s : string) : bool :=
  match s with
  | EmptyString => true
  | String b s' => plainByte b && plainText s'
  end.

(** The flat record [ListRecords] builds for a member of a record set. *)
Definition flat (sm : ResourceRecordSet * RecordT) : RecordT :=
  {| rName := rrsName (fst sm); rType := rrsType (fst sm);
     rContent := rContent (snd sm); rTTL := rrsTTL (fst sm);
     rDisabled := false |}.


(** The client before the probe: path-less server URL, version 0. *)
Definition unprobed (u : url.URL) (key : string) : Client :=
  {| serverURL := url_String (url.set_Path u EmptyString); apiKey := key;
     apiVersion := 0 |}.

(** A run that leaves the world as it found it: nothing is sent. *)
Definition silent {A : Type} (c : M A) : Prop :=
  forall w, snd (c w) = w.

(** A run that sends nothing or makes one exchange with the server. *)
Definition atMostOneExchange {A : Type} (c : M A) : Prop :=
  forall w, snd (c w) = w \/ exists req, snd (c w) = snd (Do req w).

(** A run that hands on the error of the exchange it made. *)
Definition handsOnTransportError {A : Type} (c : M A) : Prop :=
  forall w req e,
    wire (snd (c w)) = (wire w ++ [req])%list ->
    fst (roundTrip req (server w)) = inr e ->
    fst (c w) = Err e.



(** A run that does not end in a panic. *)
Definition neverPanics {A : Type} (c : M A) : Prop :=
  forall w, fst (c w) <> Panic.

End Vocabulary.

(* ================================================================= *)
(** * Properties *)

(** ** Strings *)

Module StringFacts.
Import strings.

Lemma append_empty_r (s : string) : s ++ EmptyString = s.
Proof. induction s; simpl; congruence. Qed.

Lemma append_assoc (a b c : string) : (a ++ b) ++ c = a ++ (b ++ c).
Proof. induction a; simpl; congruence. Qed.

Lemma length_append (a b : string) :
  String.length (a ++ b) = String.length a + String.length b.
Proof. induction a; simpl; congruence. Qed.

Lemma slice_to_app (a b : string) : slice_to (String.length a) (a ++ b) = a.
Proof. induction a; simpl; [destruct b; reflexivity | congruence]. Qed.

Lemma slice_from_app (a b : string) : slice_from (String.length a) (a ++ b) = b.
Proof. induction a; simpl; [destruct b; reflexivity | assumption]. Qed.

Lemma slice_to_from (m : nat) (s : string) : slice_to m s ++ slice_from m s = s.
Proof.
  revert s; induction m as [|m IH]; intros [|a s]; simpl; try reflexivity.
  now rewrite IH.
Qed.

Lemma length_slice_to (m : nat) (s : string) :
  m <= String.length s -> String.length (slice_to m s) = m.
Proof.
  revert s; induction m as [|m IH]; intros [|a s]; simpl; intros Hm; try lia.
  rewrite IH; lia.
Qed.

Lemma length_slice_from (m : nat) (s : string) :
  String.length (slice_from m s) = String.length s - m.
Proof.
  revert s; induction m as [|m IH]; intros [|a s]; simpl; try lia.
  apply IH.
Qed.

Lemma slice_from_add (m k : nat) (s : string) :
  slice_from (m + k) s = slice_from k (slice_from m s).
Proof.
  revert s; induction m as [|m IH]; intros s; simpl; [reflexivity|].
  destruct s as [|a s]; [destruct k; reflexivity | apply IH].
Qed.

Lemma HasPrefix_app (p s : string) : HasPrefix (p ++ s) p = true.
Proof.
  induction p as [|a p IH]; simpl; [reflexivity|].
  now rewrite Ascii.eqb_refl, IH.
Qed.

Lemma HasPrefix_split (s p : string) :
  HasPrefix s p = true -> s = p ++ slice_from (String.length p) s.
Proof.
  revert s; induction p as [|a p IH]; intros s Hp; simpl in *; [reflexivity|].
  destruct s as [|b s]; [discriminate|].
  apply andb_prop in Hp as [Hab Hp].
  apply Ascii.eqb_eq in Hab; subst b.
  simpl; f_equal; now apply IH.
Qed.

Lemma HasPrefix_length (s p : string) :
  HasPrefix s p = true -> String.length p <= String.length s.
Proof.
  intros Hp. apply HasPrefix_split in Hp.
  apply (f_equal String.length) in Hp. rewrite length_append in Hp. lia.
Qed.

(** [Index] finds an occurrence: the text before it, the separator, the
    text after it. *)
Lemma Index_Some_split (s sep : string) (i : nat) :
  Index s sep = Some i ->
  s = slice_to i s ++ sep ++ slice_from (i + String.length sep) s.
Proof.
  revert i; induction s as [|a s IH]; intros i Hi; simpl in Hi.
  - destruct (HasPrefix EmptyString sep) eqn:Hp; [|discriminate].
    inversion Hi; subst i; simpl. now apply HasPrefix_split.
  - destruct (HasPrefix (String a s) sep) eqn:Hp.
    + inversion Hi; subst i. now apply HasPrefix_split in Hp.
    + destruct (Index s sep) as [j|] eqn:Hj; [|discriminate].
      inversion Hi; subst i; simpl. f_equal. now apply IH.
Qed.

Lemma Index_bound (s sep : string) (i : nat) :
  Index s sep = Some i -> i + String.length sep <= String.length s.
Proof.
  revert i; induction s as [|a s IH]; intros i Hi; simpl in Hi.
  - destruct (HasPrefix EmptyString sep) eqn:Hp; [|discriminate].
    inversion Hi; subst i. apply HasPrefix_length in Hp. simpl in *; lia.
  - destruct (HasPrefix (String a s) sep) eqn:Hp.
    + inversion Hi; subst i. apply HasPrefix_length in Hp. simpl in *; lia.
    + destruct (Index s sep) as [j|] eqn:Hj; [|discriminate].
      inversion Hi; subst i. specialize (IH j eq_refl). simpl; lia.
Qed.

(** Whatever lies between the parts of an occurrence is found by [Index]:
    it returns some offset, at most the length of the text before. *)
Lemma Index_app_found (a sep b : string) :
  exists i, Index (a ++ sep ++ b) sep = Some i /\ i <= String.length a.
Proof.
  induction a as [|c a IH]; simpl.
  - exists 0. split; [|lia].
    destruct (sep ++ b) eqn:E; simpl;
      rewrite <- E, HasPrefix_app; reflexivity.
  - destruct (HasPrefix (String c (a ++ sep ++ b)) sep).
    + exists 0; split; [reflexivity | lia].
    + destruct IH as (i & -> & Hi). exists (S i); split; [reflexivity | lia].
Qed.

Lemma Contains_app (a sub b : string) : Contains (a ++ sub ++ b) sub = true.
Proof.
  unfold Contains. now destruct (Index_app_found a sub b) as (i & -> & _).
Qed.

Lemma Count_loop_ge (fuel : nat) (s sep : string) (n : nat) :
  n <= Count_loop fuel s sep n.
Proof.
  revert s n; induction fuel as [|f IH]; intros s n; simpl; [lia|].
  destruct (Index s sep); [|lia].
  specialize (IH (slice_from (n0 + String.length sep) s) (S n)); lia.
Qed.

Lemma genSplit_loop_nonempty (k : nat) (s sep : string) :
  exists a rest, genSplit_loop k s sep = a :: rest.
Proof.
  destruct k; simpl; [eauto|]. destruct (Index s sep); eauto.
Qed.

Section SplitShape.

Variables (c : ascii) (sep' : string).
Let sep := String c sep'.

(** No occurrence: one part, the string itself. *)
Lemma Split_none (s : string) : Index s sep = None -> Split s sep = [s].
Proof.
  intros Hs. unfold Split, sep in *.
  destruct (Nat.min _ _ - 1); simpl; [reflexivity | now rewrite Hs].
Qed.

Lemma Count_pos (s : string) (m : nat) :
  Index s sep = Some m -> 1 <= Nat.min (Count s sep) (String.length s).
Proof.
  intros Hs. pose proof (Index_bound _ _ _ Hs) as Hb.
  unfold sep in *. simpl in Hb. unfold Count.
  destruct (String.length s) as [|f] eqn:El; [lia|].
  cbn [Count_loop]. rewrite Hs.
  match goal with |- context [Count_loop f ?t ?p 1] =>
    pose proof (Count_loop_ge f t p 1) end. lia.
Qed.

(** One occurrence and none after it: two parts. *)
Lemma Split_one (s : string) (m : nat) :
  Index s sep = Some m ->
  Index (slice_from (m + String.length sep) s) sep = None ->
  Split s sep = [slice_to m s; slice_from (m + String.length sep) s].
Proof.
  intros Hs Hrest. pose proof (Count_pos _ _ Hs) as Hc.
  unfold Split, sep in *.
  replace (Nat.min (Count s (String c sep') + 1) (String.length s + 1) - 1)
    with (Nat.min (Count s (String c sep')) (String.length s)) by lia.
  destruct (Nat.min _ _) as [|k]; [lia|].
  cbn [genSplit_loop]. rewrite Hs. f_equal.
  destruct k; cbn [genSplit_loop]; [reflexivity | now rewrite Hrest].
Qed.

(** An occurrence and another one after it: three parts or more. *)
Lemma Split_more (s : string) (m m' : nat) :
  Index s sep = Some m ->
  Index (slice_from (m + String.length sep) s) sep = Some m' ->
  exists p1 p2 p3 rest, Split s sep = p1 :: p2 :: p3 :: rest.
Proof.
  intros Hs Hrest.
  pose proof (Index_bound _ _ _ Hs) as Hb.
  pose proof (Index_bound _ _ _ Hrest) as Hb'.
  rewrite length_slice_from in Hb'.
  unfold Split, sep in *. simpl String.length in *.
  assert (Hc : 2 <= Nat.min (Count s (String c sep')) (String.length s)).
  { unfold Count.
    destruct (String.length s) as [|[|f]] eqn:El; try lia.
    cbn [Count_loop]. rewrite Hs. simpl String.length. rewrite Hrest.
    match goal with |- context [Count_loop f ?t ?p 2] =>
      pose proof (Count_loop_ge f t p 2) end. lia. }
  replace (Nat.min (Count s (String c sep') + 1) (String.length s + 1) - 1)
    with (Nat.min (Count s (String c sep')) (String.length s)) by lia.
  destruct (Nat.min _ _) as [|[|k]]; try lia.
  cbn [genSplit_loop]. rewrite Hs. simpl String.length. rewrite Hrest.
  match goal with |- context [genSplit_loop k ?t ?p] =>
    destruct (genSplit_loop_nonempty k t p) as (p3 & rest & ->) end.
  eauto.
Qed.

End SplitShape.

End StringFacts.

(* ================================================================= *)
(** ** The loop bounds are enough

    The loops of [strings.Count], [utf8.RuneCountInString] and
    [strconv.Quote] run until their input is used up; the models bound them
    by the length of the input.  Any larger bound gives the same result, so
    the bound never cuts a loop short. *)

Section LoopBounds.
Import strings StringFacts.

Lemma Index_empty (c : ascii) (sep : string) :
  Index EmptyString (String c sep) = None.
Proof. reflexivity. Qed.

Lemma length_zero_empty (s : string) : String.length s <= 0 -> s = EmptyString.
Proof. destruct s; simpl; [reflexivity | lia]. Qed.

Lemma Count_loop_bound (c : ascii) (sep : string) (f1 f2 : nat) (s : string)
  (n : nat) :
  String.length s <= f1 -> String.length s <= f2 ->
  Count_loop f1 s (String c sep) n = Count_loop f2 s (String c sep) n.
Proof.
  revert f2 s n; induction f1 as [|f1 IH]; intros f2 s n H1 H2.
  - apply length_zero_empty in H1; subst s. destruct f2; reflexivity.
  - destruct f2 as [|f2].
    + apply length_zero_empty in H2; subst s. reflexivity.
    + cbn [Count_loop].
      destruct (Index s (String c sep)) as [i|] eqn:Hi; [|reflexivity].
      apply IH; rewrite length_slice_from; simpl String.length; lia.
Qed.

Lemma Decode_width (b : ascii) (s : string) :
  1 <= snd (utf8.DecodeRuneInString (String b s)).
Proof.
  unfold utf8.DecodeRuneInString.
  repeat match goal with
         | |- context [if ?c then _ else _] => destruct c
         | |- context [match ?x with _ => _ end] => destruct x
         end; simpl; lia.
Qed.

Lemma RuneCount_loop_bound (f1 f2 : nat) (s : string) :
  String.length s <= f1 -> String.length s <= f2 ->
  utf8.RuneCount_loop f1 s = utf8.RuneCount_loop f2 s.
Proof.
  revert f2 s; induction f1 as [|f1 IH]; intros f2 s H1 H2.
  - apply length_zero_empty in H1; subst s. destruct f2; reflexivity.
  - destruct f2 as [|f2].
    + apply length_zero_empty in H2; subst s. reflexivity.
    + cbn [utf8.RuneCount_loop]. destruct s as [|b s]; [reflexivity|].
      f_equal. pose proof (Decode_width b s).
      apply IH; rewrite length_slice_from; simpl String.length in *; lia.
Qed.

Lemma quote_loop_bound {U : UnicodeTables} (f1 f2 : nat) (s : string) :
  String.length s <= f1 -> String.length s <= f2 ->
  strconv.quote_loop f1 s = strconv.quote_loop f2 s.
Proof.
  revert f2 s; induction f1 as [|f1 IH]; intros f2 s H1 H2.
  - apply length_zero_empty in H1; subst s. destruct f2; reflexivity.
  - destruct f2 as [|f2].
    + apply length_zero_empty in H2; subst s. reflexivity.
    + cbn [strconv.quote_loop]. destruct s as [|b s]; [reflexivity|].
      cbv zeta. f_equal.
      assert (Hw : 1 <= snd (if (utf8.byteZ b >=? utf8.RuneSelf)%Z
                             then utf8.DecodeRuneInString (String b s)
                             else (utf8.byteZ b, 1))).
      { destruct (utf8.byteZ b >=? utf8.RuneSelf)%Z;
          [apply Decode_width | simpl; lia]. }
      apply IH; rewrite length_slice_from; simpl String.length in *; lia.
Qed.

End LoopBounds.

(* ================================================================= *)
(** ** Record identifiers *)

Section Identifiers.
Import strings StringFacts.

Lemma Index_None_cons (a : ascii) (s sep : string) :
  Index (String a s) sep = None ->
  HasPrefix (String a s) sep = false /\ Index s sep = None.
Proof.
  simpl. destruct (HasPrefix (String a s) sep); [discriminate|].
  destruct (Index s sep); [discriminate | auto].
Qed.

Lemma lastByte_cons (a b : ascii) (s : string) :
  lastByte (String a (String b s)) = lastByte (String b s).
Proof. reflexivity. Qed.

(** In [name ++ ":::" ++ tpe] the leftmost separator is the one that [ID]
    wrote, provided [name] holds no separator and does not end in a colon. *)
Lemma Index_ID (name tpe : string) :
  Index name IDSeparator = None ->
  lastByte name <> Some ":"%char ->
  Index (name ++ IDSeparator ++ tpe) IDSeparator = Some (String.length name).
Proof.
  unfold IDSeparator.
  induction name as [|c n IH]; intros Hnone Hlast; [reflexivity|].
  apply Index_None_cons in Hnone as [Hpre Hnone].
  assert (Hn : lastByte n <> Some ":"%char).
  { destruct n as [|d n']; [discriminate|]. now rewrite lastByte_cons in Hlast. }
  specialize (IH Hnone Hn).
  change (Index (String c n ++ ":::" ++ tpe) ":::")
    with (if HasPrefix (String c (n ++ ":::" ++ tpe)) ":::" then Some 0
          else option_map S (Index (n ++ ":::" ++ tpe) ":::")).
  rewrite IH.
  replace (HasPrefix (String c (n ++ ":::" ++ tpe)) ":::") with false;
    [reflexivity|].
  symmetry. cbn [HasPrefix String.append andb] in Hpre |- *.
  destruct (Ascii.eqb ":" c) eqn:Ec; [|reflexivity].
  apply Ascii.eqb_eq in Ec; subst c.
  destruct n as [|d n']; [now elim Hlast|]. cbn [HasPrefix String.append andb] in Hpre |- *.
  destruct (Ascii.eqb ":" d) eqn:Ed; [|reflexivity].
  apply Ascii.eqb_eq in Ed; subst d.
  destruct n' as [|e n'']; [now elim Hlast|]. cbn [HasPrefix String.append andb] in Hpre |- *.
  destruct (Ascii.eqb ":" e); [discriminate | reflexivity].
Qed.

Lemma Contains_false (s sub : string) :
  Contains s sub = false <-> Index s sub = None.
Proof.
  unfold Contains. destruct (Index s sub); split; congruence.
Qed.

Lemma parseID_cases (recID : string) :
  match Index recID IDSeparator with
  | None => parseID recID = Err "Unknown record ID format"
  | Some m =>
      let rest := slice_from (m + 3) recID in
      match Index rest IDSeparator with
      | None => parseID recID = Ok (slice_to m recID, rest)
      | Some _ => parseID recID = Err "Unknown record ID format"
      end
  end.
Proof.
  unfold parseID, IDSeparator.
  destruct (Index recID ":::") as [m|] eqn:Hm.
  - cbv zeta. destruct (Index (slice_from (m + 3) recID) ":::") as [m'|] eqn:Hm'.
    + destruct (Split_more _ _ _ _ _ Hm Hm') as (p1 & p2 & p3 & rest & ->).
      reflexivity.
    + now rewrite (Split_one _ _ _ _ Hm Hm').
  - rewrite (Split_none _ _ _ Hm). reflexivity.
Qed.

(** What [parseID] accepts, and what it returns then. *)
Lemma parseID_Ok_iff (recID name tpe : string) :
  parseID recID = Ok (name, tpe) <->
  (recID = name ++ IDSeparator ++ tpe
   /\ Index recID IDSeparator = Some (String.length name)
   /\ Index tpe IDSeparator = None).
Proof.
  pose proof (parseID_cases recID) as Hc.
  destruct (Index recID IDSeparator) as [m|] eqn:Hm.
  - cbv zeta in Hc.
    pose proof (Index_Some_split _ _ _ Hm) as Hsplit.
    pose proof (Index_bound _ _ _ Hm) as Hb.
    change (String.length IDSeparator) with 3 in *.
    destruct (Index (slice_from (m + 3) recID) IDSeparator) as [m'|] eqn:Hm'.
    + split.
      * rewrite Hc; discriminate.
      * intros (Heq & Hi & Ht). exfalso.
        assert (m = String.length name) by congruence. subst m.
        rewrite Heq in Hm' at 1.
        rewrite slice_from_add, slice_from_app in Hm'.
        change (slice_from 3 (IDSeparator ++ tpe)) with tpe in Hm'. congruence.
    + split.
      * rewrite Hc. intros Hok; inversion Hok; subst name tpe.
        rewrite length_slice_to by lia. auto.
      * intros (Heq & Hi & Ht).
        assert (m = String.length name) by congruence. subst m.
        rewrite Hc. rewrite Heq at 1 2.
        rewrite slice_to_app, slice_from_add, slice_from_app. reflexivity.
  - split.
    + rewrite Hc; discriminate.
    + intros (_ & Hi & _); discriminate.
Qed.

(** [parseID] knows one error. *)
Lemma parseID_Ok_or_Err (recID : string) :
  (exists name tpe, parseID recID = Ok (name, tpe))
  \/ parseID recID = Err "Unknown record ID format".
Proof.
  pose proof (parseID_cases recID) as Hc.
  destruct (Index recID IDSeparator) as [m|]; [|now right].
  cbv zeta in Hc.
  destruct (Index (slice_from (m + 3) recID) IDSeparator); [now right|].
  left; eauto.
Qed.

(** C4, as amended: [parseID] accepts an identifier exactly when the
    leftmost separator cuts it into a name and a type and the type holds no
    further separator; both parts may be empty, and nothing of the
    identifier is dropped.  Every other identifier is rejected with the
    error [Unknown record ID format]. *)
Theorem parseID_accepts_iff (recID : string) :
  (forall name tpe,
      parseID recID = Ok (name, tpe) <->
      (recID = name ++ IDSeparator ++ tpe
       /\ Index recID IDSeparator = Some (String.length name)
       /\ Index tpe IDSeparator = None))
  /\ ((exists name tpe, parseID recID = Ok (name, tpe))
      \/ parseID recID = Err "Unknown record ID format").
Proof.
  split; [intros name tpe; apply parseID_Ok_iff | apply parseID_Ok_or_Err].
Qed.

(** C4, as stated, fails: the bare separator is accepted, with an empty
    name and an empty type. *)
Lemma parseID_accepts_empty_parts :
  parseID ":::" = Ok (EmptyString, EmptyString).
Proof. reflexivity. Qed.

(** Overlapping separators: the leftmost one is taken, the rest stays in
    the type. *)
Example parseID_four_colons : parseID "a::::b" = Ok ("a", ":b").
Proof. reflexivity. Qed.

Example parseID_two_separators :
  parseID "a:::b:::c" = Err "Unknown record ID format".
Proof. reflexivity. Qed.

(** C5, as amended: for a name and a type that are not empty and hold no
    separator, where moreover the name does not end in a colon, parsing the
    identifier that [ID] builds gives the name and the type back. *)
Theorem parseID_Record_ID (record : RecordT) :
  rName record <> EmptyString ->
  rType record <> EmptyString ->
  Contains (rName record) IDSeparator = false ->
  Contains (rType record) IDSeparator = false ->
  lastByte (rName record) <> Some ":"%char ->
  parseID (Record_ID record) = Ok (rName record, rType record).
Proof.
  intros _ _ Hname Htype Hlast. unfold Record_ID.
  apply Contains_false in Hname, Htype.
  apply parseID_Ok_iff.
  split; [reflexivity|]. split; [now apply Index_ID | assumption].
Qed.

Lemma parseID_Record_ID_witness :
  parseID (Record_ID Fixture.legacyA) = Ok ("old.example.org.", "A").
Proof.
  apply (parseID_Record_ID Fixture.legacyA);
    solve [discriminate | reflexivity].
Defined.

(** C5, as stated, fails: the name [a:] and the type [b] are not empty and
    hold no separator, yet their identifier [a::::b] parses to other parts. *)
Lemma parseID_Record_ID_colon_name :
  let record := {| rName := "a:"; rType := "b"; rContent := "192.0.2.1";
                   rTTL := 60; rDisabled := false |} in
  rName record <> EmptyString
  /\ rType record <> EmptyString
  /\ Contains (rName record) IDSeparator = false
  /\ Contains (rType record) IDSeparator = false
  /\ parseID (Record_ID record) = Ok ("a", ":b")
  /\ parseID (Record_ID record) <> Ok (rName record, rType record).
Proof.
  cbv zeta. repeat split; try discriminate; reflexivity.
Qed.

End Identifiers.

(* ================================================================= *)
(** ** Listing records *)

Section Listing.

Context {U : UnicodeTables} {N : NetURL} {H : NetHTTP} {J : EncodingJSON}.

Lemma flattenRecordSet_elems (rrs : ResourceRecordSet) (records : slice RecordT) :
  elems (flattenRecordSet records rrs)
  = (elems records ++ map flat (map (pair rrs) (elems (rrsRecords rrs))))%list.
Proof.
  unfold flattenRecordSet.
  generalize (elems (rrsRecords rrs)) as ms. intros ms; revert records.
  induction ms as [|m ms IH]; intros records; simpl.
  - now rewrite app_nil_r.
  - rewrite IH. simpl. now rewrite <- app_assoc.
Qed.

Lemma flattenZone_elems (zoneInfo : ZoneInfo) :
  elems (flattenZone zoneInfo)
  = (elems (ziRecords zoneInfo) ++ map flat (members zoneInfo))%list.
Proof.
  unfold flattenZone, members.
  generalize (ziRecords zoneInfo) as records.
  induction (elems (ziResourceRecordSets zoneInfo)) as [|rrs sets IH];
    intros records; simpl.
  - now rewrite app_nil_r.
  - rewrite IH, flattenRecordSet_elems, map_app, app_assoc. reflexivity.
Qed.

Lemma ListRecords_run (client : Client) (zone : string) (w : World)
  (zoneInfo : ZoneInfo) :
  zoneAnswer client zone w zoneInfo ->
  fst (ListRecords client zone w) = Ok (flattenZone zoneInfo).
Proof.
  intros (req & resp & sv & Hreq & Hrt & Hdec).
  unfold ListRecords, bind, lift, Do, try, ret.
  now rewrite Hreq, Hrt, Hdec.
Qed.

Lemma Forall2_map_flat (P : ResourceRecordSet * RecordT -> RecordT -> Prop)
  (l : list (ResourceRecordSet * RecordT)) :
  (forall sm, P sm (flat sm)) -> Forall2 P l (map flat l).
Proof. intros HP; induction l; simpl; constructor; auto. Qed.

(** C1: for every zone response, [ListRecords] returns the legacy records
    first, then one flat record for each member of each record set, in the
    listed order of the sets and of the members of each set; a flat record
    has its name, type and TTL from the set and its content from the
    member. *)
Theorem ListRecords_order (client : Client) (zone : string) (w : World)
  (zoneInfo : ZoneInfo) :
  zoneAnswer client zone w zoneInfo ->
  exists records synthesized,
    fst (ListRecords client zone w) = Ok records
    /\ elems records = (elems (ziRecords zoneInfo) ++ synthesized)%list
    /\ Forall2 inherits (members zoneInfo) synthesized.
Proof.
  intros Hans. exists (flattenZone zoneInfo), (map flat (members zoneInfo)).
  split; [now apply ListRecords_run|].
  split; [apply flattenZone_elems|].
  apply Forall2_map_flat. intros sm; repeat split.
Qed.

(** C9: every record that [ListRecords] synthesizes from a member of a
    record set has [Disabled] false, whatever the flag of the member: the
    records after the legacy ones are as many as the members, and none of
    them is disabled. *)
Theorem ListRecords_synthesized_enabled (client : Client) (zone : string)
  (w : World) (zoneInfo : ZoneInfo) :
  zoneAnswer client zone w zoneInfo ->
  exists records,
    fst (ListRecords client zone w) = Ok records
    /\ let synthesized := skipn (len (ziRecords zoneInfo)) (elems records) in
       List.length synthesized = List.length (members zoneInfo)
       /\ Forall (fun r => rDisabled r = false) synthesized.
Proof.
  intros Hans. exists (flattenZone zoneInfo).
  split; [now apply ListRecords_run|].
  cbv zeta. rewrite flattenZone_elems. unfold len.
  rewrite skipn_app, Nat.sub_diag, skipn_all, skipn_O. simpl.
  split; [apply length_map|].
  apply Forall_forall. intros r Hr. apply in_map_iff in Hr as (sm & <- & _).
  reflexivity.
Qed.

(** C8: for every zone response that decodes, [ListRecordsAsRRSet] returns
    the decoded list of record sets as it is, and no error; in particular a
    zone without record sets gives a result without elements, and no
    error. *)
Theorem ListRecordsAsRRSet_verbatim (client : Client) (zone : string)
  (w : World) (zoneInfo : ZoneInfo) :
  zoneAnswer client zone w zoneInfo ->
  fst (ListRecordsAsRRSet client zone w) = Ok (ziResourceRecordSets zoneInfo)
  /\ (len (ziResourceRecordSets zoneInfo) = 0 ->
      exists rrsets,
        fst (ListRecordsAsRRSet client zone w) = Ok rrsets
        /\ elems rrsets = []).
Proof.
  intros (req & resp & sv & Hreq & Hrt & Hdec).
  assert (Hrun : fst (ListRecordsAsRRSet client zone w)
                 = Ok (ziResourceRecordSets zoneInfo)).
  { unfold ListRecordsAsRRSet, bind, lift, Do, try, ret.
    rewrite Hreq, Hrt, Hdec.
    destruct (ziResourceRecordSets zoneInfo) as [[|rrs sets]|]; reflexivity. }
  split; [exact Hrun|].
  intros Hlen. exists (ziResourceRecordSets zoneInfo). split; [exact Hrun|].
  unfold len in Hlen. now apply length_zero_iff_nil.
Qed.

Lemma matches_sameNameAndType (name tpe : string) (r : RecordT) :
  matches name tpe r = sameNameAndType name tpe r.
Proof.
  unfold matches, sameNameAndType.
  destruct (string_dec (rName r) name) as [->|Hn].
  - rewrite String.eqb_refl. destruct (string_dec (rType r) tpe) as [->|Ht].
    + now rewrite String.eqb_refl.
    + apply String.eqb_neq in Ht. now rewrite Ht.
  - apply String.eqb_neq in Hn. now rewrite Hn.
Qed.

Lemma sameNameAndType_true (name tpe : string) (r : RecordT) :
  sameNameAndType name tpe r = true <-> rName r = name /\ rType r = tpe.
Proof.
  unfold sameNameAndType.
  destruct (string_dec (rName r) name), (string_dec (rType r) tpe);
    intuition congruence.
Qed.

Lemma filter_loop (name tpe : string) (l acc : list RecordT) :
  fold_left
    (fun records r => if matches name tpe r then append records r else records)
    l (Some acc)
  = Some (acc ++ filter (sameNameAndType name tpe) l)%list.
Proof.
  revert acc; induction l as [|r l IH]; intros acc; cbn [fold_left filter].
  - now rewrite app_nil_r.
  - rewrite matches_sameNameAndType.
    destruct (sameNameAndType name tpe r); [|apply IH].
    unfold append; cbn [elems]. rewrite IH, <- app_assoc. reflexivity.
Qed.

(** C7: whenever the underlying [ListRecords] succeeds,
    [ListRecordsByNameAndType] returns a list that is not nil and holds, in
    their order, exactly the records whose name and type equal the given
    ones byte for byte; without a match the list is empty, and there is no
    error. *)
Theorem ListRecordsByNameAndType_filters (client : Client)
  (zone name tpe : string) (w w' : World) (allRecords : slice RecordT) :
  ListRecords client zone w = (Ok allRecords, w') ->
  exists records,
    ListRecordsByNameAndType client zone name tpe w = (Ok (Some records), w')
    /\ records = filter (sameNameAndType name tpe) (elems allRecords)
    /\ (forall r, In r records <->
                  In r (elems allRecords) /\ rName r = name /\ rType r = tpe)
    /\ ((forall r, In r (elems allRecords) ->
                   ~ (rName r = name /\ rType r = tpe)) ->
        records = []).
Proof.
  intros Hall.
  exists (filter (sameNameAndType name tpe) (elems allRecords)).
  split; [|split; [reflexivity|split]].
  - unfold ListRecordsByNameAndType, bind. rewrite Hall. unfold ret.
    unfold make0. now rewrite filter_loop.
  - intros r. rewrite filter_In, sameNameAndType_true. reflexivity.
  - intros Hnone.
    induction (elems allRecords) as [|r l IH]; [reflexivity|].
    cbn [filter]. destruct (sameNameAndType name tpe r) eqn:E.
    + apply sameNameAndType_true in E. exfalso. apply (Hnone r); [now left | exact E].
    + apply IH. intros r0 Hr0. apply Hnone. now right.
Qed.

End Listing.

(* ================================================================= *)
(** ** Quoted text *)

Section Quoting.
Import strings StringFacts.

Context {U : UnicodeTables}.

(** One round of the quoting loop on a plain byte: the byte is its own
    rune, it is printable and needs no escape. *)
Lemma plainByte_escape (b : ascii) :
  plainByte b = true ->
  (utf8.byteZ b >=? utf8.RuneSelf)%Z = false
  /\ (utf8.byteZ b =? utf8.RuneError)%Z = false
  /\ strconv.appendEscapedRune (utf8.byteZ b) = String b EmptyString.
Proof.
  destruct b as [[] [] [] [] [] [] [] []]; intros Hp;
    vm_compute in Hp; try discriminate Hp;
    vm_compute; repeat split; reflexivity.
Qed.

Lemma quote_loop_plain (s : string) (fuel : nat) :
  plainText s = true -> String.length s <= fuel ->
  strconv.quote_loop fuel s = s.
Proof.
  revert fuel; induction s as [|b s IH]; intros fuel Hp Hf.
  - destruct fuel; reflexivity.
  - destruct fuel as [|fuel]; [simpl in Hf; lia|].
    cbn [plainText] in Hp. apply andb_prop in Hp as [Hb Hs].
    destruct (plainByte_escape b Hb) as (Hself & Herr & Hesc).
    cbn [strconv.quote_loop]. cbv zeta. rewrite Hself. cbn [fst snd].
    rewrite Herr, andb_false_r, Hesc. cbn [slice_from String.append].
    rewrite IH; [reflexivity | assumption | simpl in Hf; lia].
Qed.

(** Plain text is quoted by putting it between double quotes. *)
Lemma Quote_plain (s : string) :
  plainText s = true ->
  strconv.Quote s
  = String strconv.dquote (s ++ String strconv.dquote EmptyString).
Proof.
  intros Hp. unfold strconv.Quote. now rewrite quote_loop_plain.
Qed.

Lemma Contains_quoted (a s : string) :
  plainText s = true -> Contains (a ++ strconv.Quote s) s = true.
Proof.
  intros Hp. rewrite Quote_plain by assumption.
  change (String strconv.dquote (s ++ String strconv.dquote EmptyString))
    with (String strconv.dquote EmptyString
          ++ (s ++ String strconv.dquote EmptyString)).
  rewrite <- append_assoc. apply Contains_app.
Qed.

Lemma Contains_suffix (a sub : string) : Contains (a ++ sub) sub = true.
Proof.
  rewrite <- (append_empty_r sub) at 1. apply Contains_app.
Qed.

End Quoting.

(* ================================================================= *)
(** ** Requests and mutations *)

Section Mutations.
Import strings StringFacts.

Context {U : UnicodeTables} {N : NetURL} {H : NetHTTP} {J : EncodingJSON}.

(** What [newRequest] puts into a request it returns. *)
Lemma newRequest_Ok (client : Client) (method endpoint : string)
  (body : option string) (req : http.Request) :
  newRequest client method endpoint body = Ok req ->
  http.Method req = method /\ http.Body req = body
  /\ exists u, requestURL client endpoint = Ok u /\ http.URL req = url_String u.
Proof.
  unfold newRequest.
  destruct (requestURL client endpoint) as [u|e|]; try discriminate.
  destruct (NewRequest_error method (url_String u)); try discriminate.
  destruct (negb (method =? "GET")%string); intros Hreq; inversion Hreq;
    (split; [reflexivity|]; split; [reflexivity|]; exists u; auto).
Qed.

Lemma rejected_false (resp : http.Response) :
  http.StatusCode resp = 200%Z \/ http.StatusCode resp = 204%Z ->
  rejected resp = false.
Proof.
  unfold rejected. intros [-> | ->]; reflexivity.
Qed.

Lemma rejected_true (resp : http.Response) :
  http.StatusCode resp <> 200%Z -> http.StatusCode resp <> 204%Z ->
  rejected resp = true.
Proof.
  unfold rejected. intros H200 H204.
  apply Z.eqb_neq in H200, H204. now rewrite H200, H204.
Qed.

(** C3, as amended: [CreateRecord] sends one PATCH whose body is the
    marshalled patch with a single record set, of change type REPLACE, whose
    records are the given record alone.  On status 200 or 204 it returns the
    identifier of the record.  On any other status it fails: when the body
    decodes as an error the message is made of the identifier and of the
    reason as the verb [%q] prints it (quoted and escaped), so it holds the
    reason itself whenever the reason is plain text; when the body does not
    decode the message is the generic one, which holds the identifier. *)
Theorem CreateRecord_contract (client : Client) (zone : string)
  (record : RecordT) (w : World) (req : http.Request) :
  newRequest client "PATCH" (zoneEndpoint zone)
    (Some (Marshal (createPatch record))) = Ok req ->
  http.Method req = "PATCH"
  /\ http.Body req
     = Some (Marshal
               {| RecordSets :=
                    Some [ {| rrsName := rName record; rrsType := rType record;
                              rrsChangeType := "REPLACE"; rrsTTL := 0;
                              rrsRecords := Some [record] |} ] |})
  /\ wire (snd (CreateRecord client zone record w)) = (wire w ++ [req])%list
  /\ forall resp sv,
       roundTrip req (server w) = (inl resp, sv) ->
       let out := fst (CreateRecord client zone record w) in
       (http.StatusCode resp = 200%Z \/ http.StatusCode resp = 204%Z ->
        out = Ok (Record_ID record))
       /\ (http.StatusCode resp <> 200%Z -> http.StatusCode resp <> 204%Z ->
           (forall reason,
               Decode_errorResponse (http.RespBody resp)
               = inl {| ErrorMsg := reason |} ->
               exists text,
                 out = Err text
                 /\ text = "Error creating record: " ++ Record_ID record
                           ++ ", reason: " ++ strconv.Quote reason
                 /\ Contains text (Record_ID record) = true
                 /\ Contains text (strconv.Quote reason) = true
                 /\ (plainText reason = true -> Contains text reason = true))
           /\ (forall e,
                  Decode_errorResponse (http.RespBody resp) = inr e ->
                  exists text,
                    out = Err text
                    /\ text = "Error creating record: " ++ Record_ID record
                    /\ Contains text (Record_ID record) = true)).
Proof.
  intros Hreq.
  destruct (newRequest_Ok _ _ _ _ _ Hreq) as (Hm & Hb & _).
  split; [exact Hm|]. split; [exact Hb|]. split.
  - unfold CreateRecord, bind, lift, Do. rewrite Hreq.
    destruct (roundTrip req (server w)) as [[resp|e] sv]; [|reflexivity].
    destruct (rejected resp); [|reflexivity].
    destruct (Decode_errorResponse (http.RespBody resp)); reflexivity.
  - intros resp sv Hrt. cbv zeta.
    unfold CreateRecord, bind, lift, Do. rewrite Hreq, Hrt. split.
    + intros Hok. now rewrite (rejected_false _ Hok).
    + intros H200 H204. rewrite (rejected_true _ H200 H204). split.
      * intros reason ->. eexists. split; [reflexivity|].
        split; [reflexivity|]. cbn [ErrorMsg]. split; [apply Contains_app|].
        split.
        -- rewrite <- !append_assoc. apply Contains_suffix.
        -- intros Hp. rewrite <- !append_assoc. now apply Contains_quoted.
      * intros e ->. eexists. split; [reflexivity|]. split; [reflexivity|].
        apply Contains_suffix.
Qed.

(** C6, as amended: [DeleteRecordSet] sends one PATCH whose single record
    set has change type DELETE and a nil list of records.  On a status other
    than 200 and 204 with a body that decodes as an error, the message holds
    the name, the type, and the reason as the verb [%q] prints it (quoted
    and escaped), hence the reason itself whenever it is plain text. *)
Theorem DeleteRecordSet_contract (client : Client) (zone name tpe : string)
  (w : World) (req : http.Request) :
  newRequest client "PATCH" (zoneEndpoint zone)
    (Some (Marshal (deletePatch name tpe))) = Ok req ->
  http.Method req = "PATCH"
  /\ http.Body req
     = Some (Marshal
               {| RecordSets :=
                    Some [ {| rrsName := name; rrsType := tpe;
                              rrsChangeType := "DELETE"; rrsTTL := 0;
                              rrsRecords := None |} ] |})
  /\ wire (snd (DeleteRecordSet client zone name tpe w)) = (wire w ++ [req])%list
  /\ forall resp sv reason,
       roundTrip req (server w) = (inl resp, sv) ->
       http.StatusCode resp <> 200%Z -> http.StatusCode resp <> 204%Z ->
       Decode_errorResponse (http.RespBody resp) = inl {| ErrorMsg := reason |} ->
       exists text,
         fst (DeleteRecordSet client zone name tpe w) = Err text
         /\ text = "Error deleting record: " ++ name ++ " " ++ tpe
                   ++ ", reason: " ++ strconv.Quote reason
         /\ Contains text name = true
         /\ Contains text tpe = true
         /\ Contains text (strconv.Quote reason) = true
         /\ (plainText reason = true -> Contains text reason = true).
Proof.
  intros Hreq.
  destruct (newRequest_Ok _ _ _ _ _ Hreq) as (Hm & Hb & _).
  split; [exact Hm|]. split; [exact Hb|]. split.
  - unfold DeleteRecordSet, bind, lift, Do. rewrite Hreq.
    destruct (roundTrip req (server w)) as [[resp|e] sv]; [|reflexivity].
    destruct (rejected resp); [|reflexivity].
    destruct (Decode_errorResponse (http.RespBody resp)); reflexivity.
  - intros resp sv reason Hrt H200 H204 Hdec.
    unfold DeleteRecordSet, bind, lift, Do.
    rewrite Hreq, Hrt, (rejected_true _ H200 H204), Hdec. cbn [ErrorMsg].
    eexists. split; [reflexivity|]. split; [reflexivity|].
    split; [apply Contains_app|]. split.
    + rewrite <- (append_assoc _ " " (tpe ++ _)), <- append_assoc.
      apply Contains_app.
    + split.
      * rewrite <- !append_assoc. apply Contains_suffix.
      * intros Hp. rewrite <- !append_assoc. now apply Contains_quoted.
Qed.

End Mutations.

(* ================================================================= *)
(** ** Paths *)

Section Paths.
Import strings StringFacts.














End Paths.

(* ================================================================= *)
(** ** Client construction *)

Section Construction.
Import strings StringFacts.

Context {U : UnicodeTables} {N : NetURL} {H : NetHTTP} {J : EncodingJSON}.

Lemma NewClient_unfold (rawURL key : string) (w : World) (u : url.URL) :
  url_Parse rawURL = inl u ->
  NewClient rawURL key w
  = bind (detectapiVersion (unprobed u key))
      (fun v => ret (set_apiVersion (unprobed u key) v)) w.
Proof.
  intros Hu. unfold NewClient, bind at 1, try. now rewrite Hu.
Qed.

Lemma detectapiVersion_run (client : Client) (w : World) (probe : http.Request) :
  newRequest client "GET" "/api/v1/servers" None = Ok probe ->
  detectapiVersion client w
  = match roundTrip probe (server w) with
    | (inl resp, sv) =>
        (Ok (if (http.StatusCode resp =? 200)%Z then 1%Z else 0%Z),
         {| wire := (wire w ++ [probe])%list; server := sv |})
    | (inr e, sv) =>
        (Err e, {| wire := (wire w ++ [probe])%list; server := sv |})
    end.
Proof.
  intros Hreq. unfold detectapiVersion, bind, lift, Do, ret. rewrite Hreq.
  destruct (roundTrip probe (server w)) as [[resp|e] sv]; [|reflexivity].
  destruct (http.StatusCode resp =? 200)%Z; reflexivity.
Qed.

(** The version never changes what the server URL is. *)
Lemma requestURL_parsed (client : Client) (endpoint : string) (ub : url.URL) :
  url_Parse (serverURL client) = inl ub ->
  requestURL client endpoint
  = Ok (url.set_Path ub
          (if (apiVersion client >? 0)%Z
           then path.Join ["/api/v" ++ strconv.Itoa (apiVersion client); endpoint]
           else path.Join [url.Path ub; endpoint])).
Proof.
  intros Hub. unfold requestURL. rewrite Hub.
  destruct (apiVersion client >? 0)%Z; reflexivity.
Qed.



End Construction.

(* ================================================================= *)
(** ** Runs on the test double *)

Section Runs.
Import strings Fixture.

#[local] Existing Instance tables.
#[local] Existing Instance neturl.
#[local] Existing Instance nethttp.
#[local] Existing Instance json.

Let mixed : ZoneInfo := zone (Some [legacyA]) (Some [wwwSet; mailSet]).

Lemma zoneAnswer_mixed :
  zoneAnswer v1 "example.org." (world [answer 200 "zone:mixed"]) mixed.
Proof. unfold zoneAnswer. do 3 eexists. repeat split; reflexivity. Defined.

Lemma ListRecords_order_witness :
  exists records synthesized,
    fst (ListRecords v1 "example.org." (world [answer 200 "zone:mixed"]))
    = Ok records
    /\ elems records = (legacyA :: synthesized)%list
    /\ Forall2 inherits (members mixed) synthesized.
Proof.
  exact (ListRecords_order v1 "example.org." (world [answer 200 "zone:mixed"])
           mixed zoneAnswer_mixed).
Defined.

Lemma ListRecords_synthesized_enabled_witness :
  exists records,
    fst (ListRecords v1 "example.org." (world [answer 200 "zone:mixed"]))
    = Ok records
    /\ List.length (skipn 1 (elems records)) = 3
    /\ Forall (fun r => rDisabled r = false) (skipn 1 (elems records)).
Proof.
  exact (ListRecords_synthesized_enabled v1 "example.org."
           (world [answer 200 "zone:mixed"]) mixed zoneAnswer_mixed).
Defined.

Lemma zoneAnswer_bare :
  zoneAnswer v0 "example.org." (world [answer 200 "zone:bare"]) (zone None None).
Proof. unfold zoneAnswer. do 3 eexists. repeat split; reflexivity. Defined.

Lemma ListRecordsAsRRSet_verbatim_witness :
  fst (ListRecordsAsRRSet v0 "example.org." (world [answer 200 "zone:bare"]))
  = Ok None
  /\ (0 = 0 ->
      exists rrsets,
        fst (ListRecordsAsRRSet v0 "example.org." (world [answer 200 "zone:bare"]))
        = Ok rrsets
        /\ elems rrsets = []).
Proof.
  exact (ListRecordsAsRRSet_verbatim v0 "example.org."
           (world [answer 200 "zone:bare"]) (zone None None) zoneAnswer_bare).
Defined.

Lemma ListRecords_mixed_run :
  ListRecords v1 "example.org." (world [answer 200 "zone:mixed"])
  = (Ok (flattenZone mixed),
     snd (ListRecords v1 "example.org." (world [answer 200 "zone:mixed"]))).
Proof. vm_compute. reflexivity. Defined.

Lemma ListRecordsByNameAndType_filters_witness :
  exists records,
    fst (ListRecordsByNameAndType v1 "example.org." "WWW.example.org." "A"
           (world [answer 200 "zone:mixed"]))
    = Ok (Some records)
    /\ records = [].
Proof.
  destruct (ListRecordsByNameAndType_filters v1 "example.org."
              "WWW.example.org." "A" _ _ _ ListRecords_mixed_run)
    as (records & Hrun & Hfilter & _).
  exists records. split; [now rewrite Hrun | exact Hfilter].
Defined.

Lemma CreateRecord_contract_witness :
  wire (snd (CreateRecord v1 "example.org." legacyA (world [answer 204 EmptyString])))
  = [patch "rrsets: REPLACE old.example.org. A [192.0.2.1]"]
  /\ fst (CreateRecord v1 "example.org." legacyA (world [answer 204 EmptyString]))
     = Ok "old.example.org.:::A".
Proof.
  assert (Hreq : newRequest v1 "PATCH" (zoneEndpoint "example.org.")
                   (Some (Marshal (createPatch legacyA)))
                 = Ok (patch "rrsets: REPLACE old.example.org. A [192.0.2.1]"))
    by (vm_compute; reflexivity).
  destruct (CreateRecord_contract v1 "example.org." legacyA
              (world [answer 204 EmptyString]) _ Hreq)
    as (_ & _ & Hwire & Hout).
  split; [exact Hwire|].
  apply (Hout {| http.StatusCode := 204; http.RespBody := EmptyString |} []);
    [reflexivity | now right].
Defined.

Lemma DeleteRecordSet_contract_witness :
  exists text,
    fst (DeleteRecordSet v1 "example.org." "www.example.org." "A"
           (world [answer 422 "error:no such zone"]))
    = Err text
    /\ Contains text "www.example.org." = true
    /\ Contains text "A" = true
    /\ Contains text "no such zone" = true.
Proof.
  assert (Hreq : newRequest v1 "PATCH" (zoneEndpoint "example.org.")
                   (Some (Marshal (deletePatch "www.example.org." "A")))
                 = Ok (patch "rrsets: DELETE www.example.org. A []"))
    by (vm_compute; reflexivity).
  destruct (DeleteRecordSet_contract v1 "example.org." "www.example.org." "A"
              (world [answer 422 "error:no such zone"]) _ Hreq)
    as (_ & _ & _ & Hout).
  destruct (Hout {| http.StatusCode := 422; http.RespBody := "error:no such zone" |}
              [] "no such zone")
    as (text & Hrun & _ & Hn & Ht & _ & Hr);
    try discriminate; try reflexivity.
  exists text. repeat split; auto.
Defined.




(** C3, as stated, fails: the server's reason [a\b] is printed with its
    backslash doubled, and the message does not hold the reason. *)
Lemma CreateRecord_reason_escaped :
  exists text,
    Decode_errorResponse "error:a\b" = inl {| ErrorMsg := "a\b" |}
    /\ fst (CreateRecord v1 "example.org." legacyA
              (world [answer 422 "error:a\b"]))
       = Err text
    /\ Contains text (Record_ID legacyA) = true
    /\ Contains text "a\\b" = true
    /\ Contains text "a\b" = false.
Proof.
  eexists. split; [reflexivity|]. split; [reflexivity|].
  repeat split; reflexivity.
Qed.

(** C6, as stated, fails: the same reason through [DeleteRecordSet]. *)
Lemma DeleteRecordSet_reason_escaped :
  exists text,
    Decode_errorResponse "error:a\b" = inl {| ErrorMsg := "a\b" |}
    /\ fst (DeleteRecordSet v1 "example.org." "www.example.org." "A"
              (world [answer 422 "error:a\b"]))
       = Err text
    /\ Contains text "www.example.org." = true
    /\ Contains text "A" = true
    /\ Contains text "a\b" = false.
Proof.
  eexists. split; [reflexivity|]. split; [reflexivity|].
  repeat split; reflexivity.
Qed.

(** The scenario of the specification: the server answers 200 to the probe,
    the client has version 1, and [ListZones] asks for
    [/api/v1/servers/localhost/zones]. *)
Example ListZones_v1 :
  fst (NewClient "http://10.44.17.104:8100/api/v1" "changeme"
         (world [answer 200 "[]"])) = Ok v1
  /\ map http.URL (wire (snd (ListZones v1 (world [answer 200 "[]"]))))
     = ["http://10.44.17.104:8100/api/v1/servers/localhost/zones"].
Proof. split; reflexivity. Qed.

(** A legacy client asks for the endpoint as it is. *)
Example ListZones_v0 :
  fst (NewClient "http://10.44.17.104:8100/api/v1" "changeme"
         (world [answer 404 "Not Found"])) = Ok v0
  /\ map http.URL (wire (snd (ListZones v0 (world [answer 200 "[]"]))))
     = ["http://10.44.17.104:8100/servers/localhost/zones"].
Proof. split; reflexivity. Qed.

(** The flattened view of a zone that has a legacy record and two record
    sets; the second member of the first set is disabled on the server. *)
Example ListRecords_mixed :
  fst (ListRecords v1 "example.org." (world [answer 200 "zone:mixed"]))
  = Ok (Some [ legacyA;
               {| rName := "www.example.org."; rType := "A";
                  rContent := "192.0.2.7"; rTTL := 60; rDisabled := false |};
               {| rName := "www.example.org."; rType := "A";
                  rContent := "192.0.2.8"; rTTL := 60; rDisabled := false |};
               {| rName := "example.org."; rType := "MX";
                  rContent := "10 mail.example.org."; rTTL := 3600;
                  rDisabled := false |} ]).
Proof. reflexivity. Qed.

End Runs.

(* ================================================================= *)
(** * Further properties of the client *)

(** ** Exchanges with the server *)

Section Exchanges.

Context {U : UnicodeTables} {N : NetURL} {H : NetHTTP} {J : EncodingJSON}.

Lemma silent_ret {A : Type} (a : A) : silent (ret a).
Proof. intros w; reflexivity. Qed.

Lemma silent_fail {A : Type} (e : error) : silent (@fail _ A e).
Proof. intros w; reflexivity. Qed.

Lemma silent_lift {A : Type} (r : result A) : silent (lift r).
Proof. intros w; reflexivity. Qed.

Lemma silent_try {A : Type} (r : A + error) : silent (try r).
Proof. destruct r; intros w; reflexivity. Qed.

Lemma silent_bind {A B : Type} (c : M A) (k : A -> M B) :
  silent c -> (forall a, silent (k a)) -> silent (bind c k).
Proof.
  intros Hc Hk w. unfold bind. specialize (Hc w).
  destruct (c w) as [[a|e|] w1]; simpl in Hc; subst w1;
    [apply Hk | reflexivity | reflexivity].
Qed.

Lemma wire_Do (req : http.Request) (w : World) :
  wire (snd (Do req w)) = (wire w ++ [req])%list.
Proof.
  unfold Do. destruct (roundTrip req (server w)) as [[resp|e] sv]; reflexivity.
Qed.

Lemma wire_grows (w : World) (req : http.Request) :
  wire w <> (wire w ++ [req])%list.
Proof.
  intros Heq. apply (f_equal (@List.length _)) in Heq.
  rewrite length_app in Heq. simpl in Heq. lia.
Qed.

Lemma one_Do (req : http.Request) : atMostOneExchange (Do req).
Proof. intros w. right. now exists req. Qed.

Lemma one_silent {A : Type} (c : M A) : silent c -> atMostOneExchange c.
Proof. intros Hc w. left. apply Hc. Qed.

Lemma one_bind_l {A B : Type} (c : M A) (k : A -> M B) :
  silent c -> (forall a, atMostOneExchange (k a)) -> atMostOneExchange (bind c k).
Proof.
  intros Hc Hk w. unfold bind. specialize (Hc w).
  destruct (c w) as [[a|e|] w1]; simpl in Hc; subst w1;
    [apply Hk | now left | now left].
Qed.

Lemma one_bind_r {A B : Type} (c : M A) (k : A -> M B) :
  atMostOneExchange c -> (forall a, silent (k a)) -> atMostOneExchange (bind c k).
Proof.
  intros Hc Hk w. unfold bind. specialize (Hc w).
  destruct (c w) as [[a|e|] w1]; simpl in Hc; [|exact Hc|exact Hc].
  rewrite (Hk a w1). exact Hc.
Qed.

Lemma hand_silent {A : Type} (c : M A) : silent c -> handsOnTransportError c.
Proof.
  intros Hc w req e Hw _. rewrite (Hc w) in Hw. now apply wire_grows in Hw.
Qed.

Lemma hand_Do_bind {A : Type} (req0 : http.Request) (k : http.Response -> M A) :
  (forall resp, silent (k resp)) -> handsOnTransportError (bind (Do req0) k).
Proof.
  intros Hk w req e Hw Hrt. unfold bind in *.
  pose proof (wire_Do req0 w) as Hdo.
  assert (Hreq : req0 = req).
  { destruct (Do req0 w) as [[resp|e0|] w1]; simpl in Hdo;
      try rewrite (Hk resp w1) in Hw; simpl in Hw;
      rewrite Hdo in Hw; apply app_inv_head in Hw; now inversion Hw. }
  subst req0. unfold Do in *.
  destruct (roundTrip req (server w)) as [[resp|e0] sv]; simpl in Hrt;
    [discriminate | now inversion Hrt].
Qed.

Lemma hand_bind_l {A B : Type} (c : M A) (k : A -> M B) :
  silent c -> (forall a, handsOnTransportError (k a)) ->
  handsOnTransportError (bind c k).
Proof.
  intros Hc Hk w req e Hw Hrt. unfold bind in *. specialize (Hc w).
  destruct (c w) as [[a|e0|] w1]; simpl in Hc; subst w1.
  - now apply (Hk a w req e).
  - now apply wire_grows in Hw.
  - now apply wire_grows in Hw.
Qed.

Lemma hand_bind_r {A B : Type} (c : M A) (k : A -> M B) :
  handsOnTransportError c -> (forall a, silent (k a)) ->
  handsOnTransportError (bind c k).
Proof.
  intros Hc Hk w req e Hw Hrt. unfold bind in *.
  specialize (Hc w req e).
  destruct (c w) as [[a|e0|] w1]; simpl in *.
  - rewrite (Hk a w1) in Hw. now specialize (Hc Hw Hrt).
  - specialize (Hc Hw Hrt). now inversion Hc.
  - now specialize (Hc Hw Hrt).
Qed.

Ltac quiet :=
  repeat first
    [ apply silent_ret | apply silent_fail | apply silent_lift | apply silent_try
    | apply silent_bind; [|intro]
    | match goal with
      | |- silent (if ?c then _ else _) => destruct c
      | |- silent (match ?x with _ => _ end) => destruct x
      end ].

(** The shape of a method that builds a request, sends it and works on the
    answer without the server. *)
Ltac one_exchange :=
  apply one_bind_l; [quiet | intro; apply one_bind_r; [apply one_Do | intro; quiet]].

Ltac hands_on :=
  apply hand_bind_l; [quiet | intro; apply hand_Do_bind; intro; quiet].

Lemma one_detectapiVersion (client : Client) :
  atMostOneExchange (detectapiVersion client).
Proof. unfold detectapiVersion. one_exchange. Qed.

Lemma one_ListRecords (client : Client) (zone : string) :
  atMostOneExchange (ListRecords client zone).
Proof. unfold ListRecords. one_exchange. Qed.

Lemma one_DeleteRecordSet (client : Client) (zone name tpe : string) :
  atMostOneExchange (DeleteRecordSet client zone name tpe).
Proof. unfold DeleteRecordSet. one_exchange. Qed.

Lemma hand_detectapiVersion (client : Client) :
  handsOnTransportError (detectapiVersion client).
Proof. unfold detectapiVersion. hands_on. Qed.

Lemma hand_ListRecords (client : Client) (zone : string) :
  handsOnTransportError (ListRecords client zone).
Proof. unfold ListRecords. hands_on. Qed.

Lemma hand_DeleteRecordSet (client : Client) (zone name tpe : string) :
  handsOnTransportError (DeleteRecordSet client zone name tpe).
Proof. unfold DeleteRecordSet. hands_on. Qed.

(** No method retries or sends a second request: whatever the arguments
    and the server, [NewClient] and every method of the client leave the
    world untouched or make exactly one exchange. *)
Theorem methods_make_at_most_one_exchange (client : Client)
  (rawURL key zone name tpe recID : string) (record : RecordT)
  (rrSet : ResourceRecordSet) :
  atMostOneExchange (NewClient rawURL key)
  /\ atMostOneExchange (ListZones client)
  /\ atMostOneExchange (ListRecords client zone)
  /\ atMostOneExchange (ListRecordsAsRRSet client zone)
  /\ atMostOneExchange (ListRecordsByNameAndType client zone name tpe)
  /\ atMostOneExchange (ListRecordsByID client zone recID)
  /\ atMostOneExchange (RecordExists client zone name tpe)
  /\ atMostOneExchange (RecordExistsByID client zone recID)
  /\ atMostOneExchange (CreateRecord client zone record)
  /\ atMostOneExchange (ReplaceRecordSet client zone rrSet)
  /\ atMostOneExchange (DeleteRecordSet client zone name tpe)
  /\ atMostOneExchange (DeleteRecordSetByID client zone recID).
Proof.
  repeat split.
  - unfold NewClient. apply one_bind_l; [quiet|]. intro u. cbv zeta.
    apply one_bind_r; [apply one_detectapiVersion | intro; quiet].
  - unfold ListZones. one_exchange.
  - apply one_ListRecords.
  - unfold ListRecordsAsRRSet. one_exchange.
  - unfold ListRecordsByNameAndType.
    apply one_bind_r; [apply one_ListRecords | intro; quiet].
  - unfold ListRecordsByID, ListRecordsByNameAndType.
    apply one_bind_l; [quiet|]. intro nt.
    apply one_bind_r; [apply one_ListRecords | intro; quiet].
  - unfold RecordExists.
    apply one_bind_r; [apply one_ListRecords | intro; quiet].
  - unfold RecordExistsByID, RecordExists.
    apply one_bind_l; [quiet|]. intro nt.
    apply one_bind_r; [apply one_ListRecords | intro; quiet].
  - unfold CreateRecord. cbv zeta. one_exchange.
  - unfold ReplaceRecordSet. cbv zeta. one_exchange.
  - apply one_DeleteRecordSet.
  - unfold DeleteRecordSetByID.
    apply one_bind_l; [quiet | intro; apply one_DeleteRecordSet].
Qed.

(** A failure of the transport is handed on as it is: when the request a
    method put on the wire got an error instead of an answer, [NewClient]
    and every method return that very error. *)
Theorem methods_hand_on_transport_error (client : Client)
  (rawURL key zone name tpe recID : string) (record : RecordT)
  (rrSet : ResourceRecordSet) :
  handsOnTransportError (NewClient rawURL key)
  /\ handsOnTransportError (ListZones client)
  /\ handsOnTransportError (ListRecords client zone)
  /\ handsOnTransportError (ListRecordsAsRRSet client zone)
  /\ handsOnTransportError (ListRecordsByNameAndType client zone name tpe)
  /\ handsOnTransportError (ListRecordsByID client zone recID)
  /\ handsOnTransportError (RecordExists client zone name tpe)
  /\ handsOnTransportError (RecordExistsByID client zone recID)
  /\ handsOnTransportError (CreateRecord client zone record)
  /\ handsOnTransportError (ReplaceRecordSet client zone rrSet)
  /\ handsOnTransportError (DeleteRecordSet client zone name tpe)
  /\ handsOnTransportError (DeleteRecordSetByID client zone recID).
Proof.
  repeat split.
  - unfold NewClient. apply hand_bind_l; [quiet|]. intro u. cbv zeta.
    apply hand_bind_r; [apply hand_detectapiVersion | intro; quiet].
  - unfold ListZones. hands_on.
  - apply hand_ListRecords.
  - unfold ListRecordsAsRRSet. hands_on.
  - unfold ListRecordsByNameAndType.
    apply hand_bind_r; [apply hand_ListRecords | intro; quiet].
  - unfold ListRecordsByID, ListRecordsByNameAndType.
    apply hand_bind_l; [quiet|]. intro nt.
    apply hand_bind_r; [apply hand_ListRecords | intro; quiet].
  - unfold RecordExists.
    apply hand_bind_r; [apply hand_ListRecords | intro; quiet].
  - unfold RecordExistsByID, RecordExists.
    apply hand_bind_l; [quiet|]. intro nt.
    apply hand_bind_r; [apply hand_ListRecords | intro; quiet].
  - unfold CreateRecord. cbv zeta. hands_on.
  - unfold ReplaceRecordSet. cbv zeta. hands_on.
  - apply hand_DeleteRecordSet.
  - unfold DeleteRecordSetByID.
    apply hand_bind_l; [quiet | intro; apply hand_DeleteRecordSet].
Qed.

End Exchanges.

(* ================================================================= *)
(** ** Lookups by name and type, and by identifier *)

Section Lookups.
Import strings StringFacts.

Context {U : UnicodeTables} {N : NetURL} {H : NetHTTP} {J : EncodingJSON}.

Lemma anyMatch_true (name tpe : string) (l : list RecordT) :
  anyMatch name tpe l = true <->
  exists r, In r l /\ rName r = name /\ rType r = tpe.
Proof.
  induction l as [|r l IH]; cbn [anyMatch].
  - split; [discriminate | intros (r & [] & _)].
  - rewrite matches_sameNameAndType.
    destruct (sameNameAndType name tpe r) eqn:E.
    + apply sameNameAndType_true in E.
      split; [intros _; exists r; split; [now left | exact E] | reflexivity].
    + rewrite IH. split.
      * intros (r0 & Hin & Hr0). exists r0. split; [now right | exact Hr0].
      * intros (r0 & [<- | Hin] & Hr0).
        -- apply sameNameAndType_true in Hr0. congruence.
        -- now exists r0.
Qed.

Lemma anyMatch_filter (name tpe : string) (l : list RecordT) :
  anyMatch name tpe l = true <-> filter (sameNameAndType name tpe) l <> [].
Proof.
  induction l as [|r l IH]; cbn [anyMatch filter].
  - split; [discriminate | congruence].
  - rewrite matches_sameNameAndType.
    destruct (sameNameAndType name tpe r); [|exact IH].
    split; [discriminate | reflexivity].
Qed.

(** [RecordExists] answers true exactly when one of the records that
    [ListRecords] returns has the given name and the given type, byte for
    byte; it makes no exchange of its own. *)
Theorem RecordExists_iff (client : Client) (zone name tpe : string)
  (w w' : World) (allRecords : slice RecordT) :
  ListRecords client zone w = (Ok allRecords, w') ->
  exists found,
    RecordExists client zone name tpe w = (Ok found, w')
    /\ (found = true <->
        exists r, In r (elems allRecords) /\ rName r = name /\ rType r = tpe).
Proof.
  intros Hall. exists (anyMatch name tpe (elems allRecords)).
  split; [|apply anyMatch_true].
  unfold RecordExists, bind. now rewrite Hall.
Qed.

(** [RecordExists] and [ListRecordsByNameAndType] agree: on the same
    answer of the server the first says true exactly when the second returns
    a list that is not empty. *)
Theorem RecordExists_agrees_with_filter (client : Client)
  (zone name tpe : string) (w w' : World) (allRecords : slice RecordT) :
  ListRecords client zone w = (Ok allRecords, w') ->
  exists found records,
    RecordExists client zone name tpe w = (Ok found, w')
    /\ ListRecordsByNameAndType client zone name tpe w = (Ok (Some records), w')
    /\ (found = true <-> records <> []).
Proof.
  intros Hall.
  exists (anyMatch name tpe (elems allRecords)),
         (filter (sameNameAndType name tpe) (elems allRecords)).
  split; [|split; [|apply anyMatch_filter]].
  - unfold RecordExists, bind. now rewrite Hall.
  - unfold ListRecordsByNameAndType, bind, ret, make0.
    now rewrite Hall, filter_loop.
Qed.

(** When [ListRecords] fails, the lookups built on it fail with the same
    error and the same world. *)
Theorem lookups_hand_on_listing_error (client : Client)
  (zone name tpe : string) (w w' : World) (e : error) :
  ListRecords client zone w = (Err e, w') ->
  ListRecordsByNameAndType client zone name tpe w = (Err e, w')
  /\ RecordExists client zone name tpe w = (Err e, w').
Proof.
  intros Hall. unfold ListRecordsByNameAndType, RecordExists, bind.
  now rewrite Hall.
Qed.

(** A malformed identifier stops the three methods that take one before
    any request is built: they return the error of [parseID], which is
    [Unknown record ID format], and the world is untouched. *)
Theorem byID_rejects_malformed (client : Client) (zone recID : string)
  (w : World) (e : error) :
  parseID recID = Err e ->
  e = "Unknown record ID format"
  /\ ListRecordsByID client zone recID w = (Err e, w)
  /\ RecordExistsByID client zone recID w = (Err e, w)
  /\ DeleteRecordSetByID client zone recID w = (Err e, w).
Proof.
  intros He. split.
  - destruct (parseID_Ok_or_Err recID) as [(n & t & Hok) | Herr]; congruence.
  - unfold ListRecordsByID, RecordExistsByID, DeleteRecordSetByID, bind, lift.
    now rewrite He.
Qed.

(** The identifier that [ID] builds from a name and a type is parsed back
    to them when neither holds the separator and the name does not end in a
    colon. *)
Lemma parseID_join (name tpe : string) :
  Contains name IDSeparator = false ->
  lastByte name <> Some ":"%char ->
  Contains tpe IDSeparator = false ->
  parseID (name ++ IDSeparator ++ tpe) = Ok (name, tpe).
Proof.
  intros Hname Hlast Htype. apply Contains_false in Hname, Htype.
  apply parseID_Ok_iff. split; [reflexivity|].
  split; [now apply Index_ID | assumption].
Qed.

(** On the identifier of a name and a type (as [Record.ID] and
    [ResourceRecordSet.ID] build it) the three methods that take an
    identifier do what their counterparts do on the name and the type,
    provided neither holds the separator and the name does not end in a
    colon. *)
Theorem byID_delegates (client : Client) (zone name tpe : string) (w : World) :
  Contains name IDSeparator = false ->
  lastByte name <> Some ":"%char ->
  Contains tpe IDSeparator = false ->
  ListRecordsByID client zone (name ++ IDSeparator ++ tpe) w
  = ListRecordsByNameAndType client zone name tpe w
  /\ RecordExistsByID client zone (name ++ IDSeparator ++ tpe) w
     = RecordExists client zone name tpe w
  /\ DeleteRecordSetByID client zone (name ++ IDSeparator ++ tpe) w
     = DeleteRecordSet client zone name tpe w.
Proof.
  intros Hname Hlast Htype.
  unfold ListRecordsByID, RecordExistsByID, DeleteRecordSetByID, bind, lift.
  rewrite (parseID_join _ _ Hname Hlast Htype). auto.
Qed.

(** Identifiers tell names and types apart as long as no name or type
    holds the separator and no name ends in a colon: two records with the
    same identifier then have the same name and the same type, and so do a
    record and a record set. *)
Theorem ID_injective (r1 r2 : RecordT) (rrSet : ResourceRecordSet) :
  Contains (rName r1) IDSeparator = false ->
  lastByte (rName r1) <> Some ":"%char ->
  Contains (rType r1) IDSeparator = false ->
  (Contains (rName r2) IDSeparator = false ->
   lastByte (rName r2) <> Some ":"%char ->
   Contains (rType r2) IDSeparator = false ->
   Record_ID r1 = Record_ID r2 ->
   rName r1 = rName r2 /\ rType r1 = rType r2)
  /\ (Contains (rrsName rrSet) IDSeparator = false ->
      lastByte (rrsName rrSet) <> Some ":"%char ->
      Contains (rrsType rrSet) IDSeparator = false ->
      Record_ID r1 = ResourceRecordSet_ID rrSet ->
      rName r1 = rrsName rrSet /\ rType r1 = rrsType rrSet).
Proof.
  intros Hn1 Hl1 Ht1.
  pose proof (parseID_join _ _ Hn1 Hl1 Ht1) as H1. fold (Record_ID r1) in H1.
  split.
  - intros Hn2 Hl2 Ht2 Heq.
    pose proof (parseID_join _ _ Hn2 Hl2 Ht2) as H2. fold (Record_ID r2) in H2.
    rewrite Heq in H1. rewrite H1 in H2. now inversion H2.
  - intros Hn2 Hl2 Ht2 Heq.
    pose proof (parseID_join _ _ Hn2 Hl2 Ht2) as H2.
    fold (ResourceRecordSet_ID rrSet) in H2.
    rewrite Heq in H1. rewrite H1 in H2. now inversion H2.
Qed.

End Lookups.

(* ================================================================= *)
(** ** Requests, replacements and deletions *)

Section Requests.
Import strings StringFacts.

Context {U : UnicodeTables} {N : NetURL} {H : NetHTTP} {J : EncodingJSON}.

(** The fields of a request that [newRequest] returns. *)
Lemma newRequest_fields (client : Client) (method endpoint : string)
  (body : option string) (req : http.Request) :
  newRequest client method endpoint body = Ok req ->
  http.Method req = method
  /\ http.Body req = body
  /\ (method = "GET" ->
      http.Header req
      = [("X-API-Key", apiKey client); ("Accept", "application/json")])
  /\ (method <> "GET" ->
      http.Header req
      = [("X-API-Key", apiKey client); ("Accept", "application/json");
         ("Content-Type", "application/json")]).
Proof.
  unfold newRequest.
  destruct (requestURL client endpoint) as [u|e|]; try discriminate.
  destruct (NewRequest_error method (url_String u)); try discriminate.
  destruct (String.eqb_spec method "GET") as [-> | Hne]; cbn [negb];
    intros Hreq; inversion Hreq; subst req; cbn;
    repeat split; try reflexivity; congruence.
Qed.

(** Every request [newRequest] returns carries the method and the body it
    was given, the API key of the client and the [Accept] header; it carries
    the [Content-Type] header exactly when the method is not [GET]. *)
Theorem newRequest_headers (client : Client) (method endpoint : string)
  (body : option string) (req : http.Request) :
  newRequest client method endpoint body = Ok req ->
  http.Method req = method
  /\ http.Body req = body
  /\ (method = "GET" ->
      http.Header req
      = [("X-API-Key", apiKey client); ("Accept", "application/json")])
  /\ (method <> "GET" ->
      http.Header req
      = [("X-API-Key", apiKey client); ("Accept", "application/json");
         ("Content-Type", "application/json")]).
Proof.
  intros Hreq. unfold newRequest in Hreq.
  destruct (requestURL client endpoint) as [u|e|]; try discriminate.
  destruct (NewRequest_error method (url_String u)); try discriminate.
  destruct (String.eqb_spec method "GET") as [-> | Hne]; cbn [negb] in Hreq;
    inversion Hreq; subst req; cbn;
    repeat split; try reflexivity; congruence.
Qed.

(** When [http.NewRequest] refuses the method or the URL, [newRequest]
    returns an error that wraps the refusal, and a method sends nothing. *)
Theorem newRequest_wraps_refusal (client : Client) (method endpoint : string)
  (body : option string) (u : url.URL) (err : error) :
  requestURL client endpoint = Ok u ->
  NewRequest_error method (url_String u) = Some err ->
  newRequest client method endpoint body
  = Err ("Error during creation of request: " ++ err).
Proof.
  intros Hu Herr. unfold newRequest. now rewrite Hu, Herr.
Qed.

(** [ReplaceRecordSet] sends one PATCH whose body is the given record set
    with its change type overwritten by REPLACE, so the change type the
    caller set has no effect on the run.  On status 200 or 204 it returns the
    identifier of the set; on another status it fails with a message that
    holds the identifier, followed by the quoted reason when the body decodes
    as an error. *)
Theorem ReplaceRecordSet_contract (client : Client) (zone : string)
  (rrSet : ResourceRecordSet) (w : World) (req : http.Request) :
  newRequest client "PATCH" (zoneEndpoint zone)
    (Some (Marshal {| RecordSets := Some [set_ChangeType rrSet "REPLACE"] |}))
  = Ok req ->
  http.Body req
  = Some (Marshal
            {| RecordSets :=
                 Some [ {| rrsName := rrsName rrSet; rrsType := rrsType rrSet;
                           rrsChangeType := "REPLACE"; rrsTTL := rrsTTL rrSet;
                           rrsRecords := rrsRecords rrSet |} ] |})
  /\ wire (snd (ReplaceRecordSet client zone rrSet w)) = (wire w ++ [req])%list
  /\ (forall changeType,
         ReplaceRecordSet client zone (set_ChangeType rrSet changeType) w
         = ReplaceRecordSet client zone rrSet w)
  /\ forall resp sv,
       roundTrip req (server w) = (inl resp, sv) ->
       let out := fst (ReplaceRecordSet client zone rrSet w) in
       (http.StatusCode resp = 200%Z \/ http.StatusCode resp = 204%Z ->
        out = Ok (rrsName rrSet ++ IDSeparator ++ rrsType rrSet))
       /\ (http.StatusCode resp <> 200%Z -> http.StatusCode resp <> 204%Z ->
           (forall reason,
               Decode_errorResponse (http.RespBody resp)
               = inl {| ErrorMsg := reason |} ->
               out = Err ("Error creating record set: "
                          ++ rrsName rrSet ++ IDSeparator ++ rrsType rrSet
                          ++ ", reason: " ++ strconv.Quote reason))
           /\ (forall e,
                  Decode_errorResponse (http.RespBody resp) = inr e ->
                  out = Err ("Error creating record set: "
                             ++ rrsName rrSet ++ IDSeparator ++ rrsType rrSet))).
Proof.
  intros Hreq.
  destruct (newRequest_Ok _ _ _ _ _ Hreq) as (_ & Hb & _).
  split; [exact Hb|]. split; [|split].
  - unfold ReplaceRecordSet, bind, lift. rewrite Hreq.
    pose proof (wire_Do req w) as Hdo.
    destruct (Do req w) as [[resp|e|] w1]; simpl in Hdo |- *; try exact Hdo.
    destruct (rejected resp); [|exact Hdo].
    destruct (Decode_errorResponse (http.RespBody resp)); exact Hdo.
  - intros changeType. reflexivity.
  - intros resp sv Hrt. cbv zeta.
    unfold ReplaceRecordSet, bind, lift, Do. rewrite Hreq, Hrt.
    unfold ResourceRecordSet_ID. cbn [rrsName rrsType set_ChangeType]. split.
    + intros Hok. now rewrite (rejected_false _ Hok).
    + intros H200 H204. rewrite (rejected_true _ H200 H204). split.
      * intros reason ->. cbn [ErrorMsg fst fail]. f_equal.
        now rewrite !append_assoc.
      * intros e ->. reflexivity.
Qed.

(** [CreateRecord] is [ReplaceRecordSet] on the record set that holds the
    record alone, under the record's name and type and with TTL 0: both put
    the same request on the wire and leave the same world, and one succeeds
    exactly when the other does, with the same identifier. *)
Theorem CreateRecord_as_ReplaceRecordSet (client : Client) (zone : string)
  (record : RecordT) (changeType : string) (w : World) :
  let rrSet := {| rrsName := rName record; rrsType := rType record;
                  rrsChangeType := changeType; rrsTTL := 0;
                  rrsRecords := Some [record] |} in
  snd (CreateRecord client zone record w)
  = snd (ReplaceRecordSet client zone rrSet w)
  /\ (forall id,
         fst (CreateRecord client zone record w) = Ok id <->
         fst (ReplaceRecordSet client zone rrSet w) = Ok id)
  /\ (fst (CreateRecord client zone record w) = Panic <->
      fst (ReplaceRecordSet client zone rrSet w) = Panic).
Proof.
  cbv zeta. unfold CreateRecord, ReplaceRecordSet, bind, lift.
  cbv zeta. unfold createPatch, set_ChangeType. cbn [rrsName rrsType rrsTTL rrsRecords].
  destruct (newRequest client "PATCH" (zoneEndpoint zone) _) as [req|e|];
    cbn [fst snd].
  - destruct (Do req w) as [[resp|e|] w1]; cbn [fst snd].
    + destruct (rejected resp).
      * destruct (Decode_errorResponse (http.RespBody resp)); cbn;
          repeat split; intros; discriminate.
      * cbn. repeat split; auto.
    + repeat split; intros; discriminate.
    + repeat split; auto.
  - repeat split; intros; discriminate.
  - repeat split; auto.
Qed.

(** [DeleteRecordSet] returns no error on status 200 or 204, without
    reading the body; on another status with a body that does not decode as
    an error it fails with the message that names the name and the type. *)
Theorem DeleteRecordSet_outcomes (client : Client) (zone name tpe : string)
  (w : World) (req : http.Request) (resp : http.Response) (sv : Server) :
  newRequest client "PATCH" (zoneEndpoint zone)
    (Some (Marshal (deletePatch name tpe))) = Ok req ->
  roundTrip req (server w) = (inl resp, sv) ->
  (http.StatusCode resp = 200%Z \/ http.StatusCode resp = 204%Z ->
   fst (DeleteRecordSet client zone name tpe w) = Ok tt)
  /\ (http.StatusCode resp <> 200%Z -> http.StatusCode resp <> 204%Z ->
      forall e,
        Decode_errorResponse (http.RespBody resp) = inr e ->
        fst (DeleteRecordSet client zone name tpe w)
        = Err ("Error deleting record: " ++ name ++ " " ++ tpe)).
Proof.
  intros Hreq Hrt. unfold DeleteRecordSet, bind, lift, Do.
  rewrite Hreq, Hrt. split.
  - intros Hok. now rewrite (rejected_false _ Hok).
  - intros H200 H204 e ->. now rewrite (rejected_true _ H200 H204).
Qed.

End Requests.

(* ================================================================= *)
(** ** Answers, construction and paths *)

Section Answers.
Import strings StringFacts.

Context {U : UnicodeTables} {N : NetURL} {H : NetHTTP} {J : EncodingJSON}.

(** What a listing method makes of an answer, as a function of the body. *)
Lemma ListRecords_answer (client : Client) (zone : string) (w : World)
  (req : http.Request) (resp : http.Response) (sv : Server) :
  newRequest client "GET" (zoneEndpoint zone) None = Ok req ->
  roundTrip req (server w) = (inl resp, sv) ->
  fst (ListRecords client zone w)
  = match Decode_ZoneInfo (http.RespBody resp) with
    | inl zoneInfo => Ok (flattenZone zoneInfo)
    | inr e => Err e
    end.
Proof.
  intros Hreq Hrt. unfold ListRecords, bind, lift, Do, try, ret, fail.
  rewrite Hreq, Hrt. now destruct (Decode_ZoneInfo (http.RespBody resp)).
Qed.

Lemma ListRecordsAsRRSet_answer (client : Client) (zone : string) (w : World)
  (req : http.Request) (resp : http.Response) (sv : Server) :
  newRequest client "GET" (zoneEndpoint zone) None = Ok req ->
  roundTrip req (server w) = (inl resp, sv) ->
  fst (ListRecordsAsRRSet client zone w)
  = match Decode_ZoneInfo (http.RespBody resp) with
    | inl zoneInfo => Ok (ziResourceRecordSets zoneInfo)
    | inr e => Err e
    end.
Proof.
  intros Hreq Hrt. unfold ListRecordsAsRRSet, bind, lift, Do, try, ret, fail.
  rewrite Hreq, Hrt.
  destruct (Decode_ZoneInfo (http.RespBody resp)) as [zoneInfo|e]; [|reflexivity].
  destruct (ziResourceRecordSets zoneInfo) as [[|rrs sets]|]; reflexivity.
Qed.

Lemma ListZones_answer (client : Client) (w : World)
  (req : http.Request) (resp : http.Response) (sv : Server) :
  newRequest client "GET" "/servers/localhost/zones" None = Ok req ->
  roundTrip req (server w) = (inl resp, sv) ->
  fst (ListZones client w)
  = match Decode_ZoneInfos (http.RespBody resp) with
    | inl zoneInfos => Ok zoneInfos
    | inr e => Err e
    end.
Proof.
  intros Hreq Hrt. unfold ListZones, bind, lift, Do, try, ret, fail.
  rewrite Hreq, Hrt. now destruct (Decode_ZoneInfos (http.RespBody resp)).
Qed.

(** The listing methods never look at the status code: two answers with
    the same body, in whatever worlds and with whatever status codes, give
    the same result. *)
Theorem listings_ignore_status (client : Client) (zone : string)
  (w1 w2 : World) (zreq lreq : http.Request) (resp1 resp2 : http.Response)
  (sv1 sv2 : Server) :
  newRequest client "GET" (zoneEndpoint zone) None = Ok zreq ->
  newRequest client "GET" "/servers/localhost/zones" None = Ok lreq ->
  http.RespBody resp1 = http.RespBody resp2 ->
  (roundTrip zreq (server w1) = (inl resp1, sv1) ->
   roundTrip zreq (server w2) = (inl resp2, sv2) ->
   fst (ListRecords client zone w1) = fst (ListRecords client zone w2)
   /\ fst (ListRecordsAsRRSet client zone w1)
      = fst (ListRecordsAsRRSet client zone w2))
  /\ (roundTrip lreq (server w1) = (inl resp1, sv1) ->
      roundTrip lreq (server w2) = (inl resp2, sv2) ->
      fst (ListZones client w1) = fst (ListZones client w2)).
Proof.
  intros Hz Hl Hbody. split.
  - intros H1 H2.
    rewrite (ListRecords_answer _ _ _ _ _ _ Hz H1),
            (ListRecords_answer _ _ _ _ _ _ Hz H2),
            (ListRecordsAsRRSet_answer _ _ _ _ _ _ Hz H1),
            (ListRecordsAsRRSet_answer _ _ _ _ _ _ Hz H2), Hbody. auto.
  - intros H1 H2.
    now rewrite (ListZones_answer _ _ _ _ _ Hl H1),
                (ListZones_answer _ _ _ _ _ Hl H2), Hbody.
Qed.

(** A body that does not decode makes the listing methods fail with the
    error of the decoder. *)
Theorem listings_hand_on_decode_error (client : Client) (zone : string)
  (w : World) (req : http.Request) (resp : http.Response) (sv : Server)
  (e : error) :
  newRequest client "GET" (zoneEndpoint zone) None = Ok req ->
  roundTrip req (server w) = (inl resp, sv) ->
  Decode_ZoneInfo (http.RespBody resp) = inr e ->
  fst (ListRecords client zone w) = Err e
  /\ fst (ListRecordsAsRRSet client zone w) = Err e
  /\ forall name tpe,
       fst (ListRecordsByNameAndType client zone name tpe w) = Err e
       /\ fst (RecordExists client zone name tpe w) = Err e.
Proof.
  intros Hreq Hrt Hdec.
  pose proof (ListRecords_answer _ _ _ _ _ _ Hreq Hrt) as Hl.
  pose proof (ListRecordsAsRRSet_answer _ _ _ _ _ _ Hreq Hrt) as Hs.
  rewrite Hdec in Hl, Hs. split; [exact Hl|]. split; [exact Hs|].
  intros name tpe. unfold ListRecordsByNameAndType, RecordExists, bind.
  destruct (ListRecords client zone w) as [[a|e0|] w1]; simpl in Hl;
    try discriminate. inversion Hl. auto.
Qed.

(** The two views of a zone fit together: on the same answer, the records
    of [ListRecords] are the legacy records followed by the flattening of the
    record sets that [ListRecordsAsRRSet] returns, and both methods leave
    the same world. *)
Theorem ListRecords_flattens_ListRecordsAsRRSet (client : Client)
  (zone : string) (w : World) (zoneInfo : ZoneInfo) :
  zoneAnswer client zone w zoneInfo ->
  exists records rrsets,
    fst (ListRecords client zone w) = Ok records
    /\ fst (ListRecordsAsRRSet client zone w) = Ok rrsets
    /\ snd (ListRecords client zone w) = snd (ListRecordsAsRRSet client zone w)
    /\ elems records
       = (elems (ziRecords zoneInfo)
          ++ flat_map (fun rrs => map (fun m => flat (rrs, m))
                                      (elems (rrsRecords rrs)))
               (elems rrsets))%list.
Proof.
  intros (req & resp & sv & Hreq & Hrt & Hdec).
  exists (flattenZone zoneInfo), (ziResourceRecordSets zoneInfo).
  rewrite (ListRecords_answer _ _ _ _ _ _ Hreq Hrt),
          (ListRecordsAsRRSet_answer _ _ _ _ _ _ Hreq Hrt), Hdec.
  split; [reflexivity|]. split; [reflexivity|]. split.
  - unfold ListRecords, ListRecordsAsRRSet, bind, lift, Do, try, ret.
    rewrite Hreq, Hrt, Hdec.
    destruct (ziResourceRecordSets zoneInfo) as [[|rrs sets]|]; reflexivity.
  - rewrite flattenZone_elems. f_equal. unfold members.
    induction (elems (ziResourceRecordSets zoneInfo)) as [|rrs sets IH];
      [reflexivity|].
    cbn [flat_map]. rewrite map_app, IH, map_map. reflexivity.
Qed.

(** Every record that [ListRecords] synthesizes carries the identifier of
    the record set it comes from. *)
Theorem synthesized_share_set_ID (client : Client) (zone : string)
  (w : World) (zoneInfo : ZoneInfo) :
  zoneAnswer client zone w zoneInfo ->
  exists records,
    fst (ListRecords client zone w) = Ok records
    /\ Forall2 (fun sm r => Record_ID r = ResourceRecordSet_ID (fst sm))
         (members zoneInfo)
         (skipn (len (ziRecords zoneInfo)) (elems records)).
Proof.
  intros Hans. exists (flattenZone zoneInfo).
  split; [now apply ListRecords_run|].
  rewrite flattenZone_elems. unfold len.
  rewrite skipn_app, Nat.sub_diag, skipn_all, skipn_O. simpl.
  apply Forall2_map_flat. intros sm. reflexivity.
Qed.

(** A client that [NewClient] returns has version 0 or 1 and the key it was
    given; to build it [NewClient] made one exchange, the probe: a GET
    without body that carries the key. *)
Theorem NewClient_invariants (rawURL key : string) (w w' : World)
  (client : Client) :
  NewClient rawURL key w = (Ok client, w') ->
  (apiVersion client = 0%Z \/ apiVersion client = 1%Z)
  /\ apiKey client = key
  /\ exists probe,
       wire w' = (wire w ++ [probe])%list
       /\ http.Method probe = "GET"
       /\ http.Body probe = None
       /\ http.Header probe
          = [("X-API-Key", key); ("Accept", "application/json")].
Proof.
  unfold NewClient, bind at 1, try.
  destruct (url_Parse rawURL) as [u|e]; [|discriminate].
  cbn [ret]. cbv zeta. unfold bind, detectapiVersion at 1, bind, lift.
  destruct (newRequest _ "GET" "/api/v1/servers" None) as [probe|e|] eqn:Hp;
    try discriminate.
  pose proof (wire_Do probe w) as Hdo.
  destruct (Do probe w) as [[resp|e|] w1]; try discriminate.
  destruct (newRequest_fields _ _ _ _ _ Hp) as (Hm & Hb & Hh & _).
  destruct (http.StatusCode resp =? 200)%Z; cbn [ret]; intros Hc;
    inversion Hc; subst; cbn [apiVersion apiKey set_apiVersion];
    (split; [auto|]; split; [reflexivity|]; exists probe;
     repeat split; auto; now apply Hh).
Qed.

(** A base URL that does not parse makes [NewClient] return the error of
    [url.Parse], with nothing sent. *)
Theorem NewClient_rejects_bad_URL (rawURL key : string) (w : World) (e : error) :
  url_Parse rawURL = inr e ->
  NewClient rawURL key w = (Err e, w).
Proof.
  intros Hbad. unfold NewClient, bind, try. now rewrite Hbad.
Qed.

End Answers.

(* ================================================================= *)
(** ** The paths of ordinary zones *)

Section ZonePaths.
Import strings StringFacts.

Context {U : UnicodeTables} {N : NetURL} {H : NetHTTP} {J : EncodingJSON}.



End ZonePaths.

(* ================================================================= *)
(** ** When [NewClient] succeeds *)

Section Probe.

Context {U : UnicodeTables} {N : NetURL} {H : NetHTTP} {J : EncodingJSON}.

(** [NewClient] returns a client exactly when the base URL parses, the
    probe can be built and the server answers it: the status code of the
    answer decides the version only, so an answer such as 401 or 500 still
    gives a client, of version 0. *)
Theorem NewClient_succeeds_iff (rawURL key : string) (w : World) :
  (exists client w', NewClient rawURL key w = (Ok client, w'))
  <->
  (exists u probe resp sv,
      url_Parse rawURL = inl u
      /\ newRequest (unprobed u key) "GET" "/api/v1/servers" None = Ok probe
      /\ roundTrip probe (server w) = (inl resp, sv)).
Proof.
  split.
  - intros (client & w' & Hc).
    destruct (url_Parse rawURL) as [u|e] eqn:Hu.
    + rewrite (NewClient_unfold _ _ _ _ Hu) in Hc. unfold bind in Hc.
      destruct (newRequest (unprobed u key) "GET" "/api/v1/servers" None)
        as [probe|e|] eqn:Hp.
      * rewrite (detectapiVersion_run _ _ _ Hp) in Hc.
        destruct (roundTrip probe (server w)) as [[resp|e] sv] eqn:Hrt;
          [|discriminate].
        exists u, probe, resp, sv. auto.
      * unfold detectapiVersion, bind, lift in Hc. rewrite Hp in Hc. discriminate.
      * unfold detectapiVersion, bind, lift in Hc. rewrite Hp in Hc. discriminate.
    + unfold NewClient, bind, try in Hc. rewrite Hu in Hc. discriminate.
  - intros (u & probe & resp & sv & Hu & Hp & Hrt).
    rewrite (NewClient_unfold _ _ _ _ Hu). unfold bind.
    rewrite (detectapiVersion_run _ _ _ Hp), Hrt. unfold ret. eauto.
Qed.

End Probe.

(* ================================================================= *)
(** ** More runs on the test double *)

Section MoreRuns.
Import strings Fixture.

#[local] Existing Instance tables.
#[local] Existing Instance neturl.
#[local] Existing Instance nethttp.
#[local] Existing Instance json.

Let mixedZone : ZoneInfo := zone (Some [legacyA]) (Some [wwwSet; mailSet]).
Let mixedWorld : World := world [answer 200 "zone:mixed"].

Let zoneRequest : http.Request :=
  {| http.Method := "GET";
     http.URL := "http://10.44.17.104:8100/api/v1/servers/localhost/zones/example.org.";
     http.Header := [("X-API-Key", "changeme"); ("Accept", "application/json")];
     http.Body := None |}.

Lemma zoneRequest_built :
  newRequest v1 "GET" (zoneEndpoint "example.org.") None = Ok zoneRequest.
Proof. vm_compute. reflexivity. Defined.

Lemma ListRecords_mixedWorld :
  ListRecords v1 "example.org." mixedWorld
  = (Ok (flattenZone mixedZone), snd (ListRecords v1 "example.org." mixedWorld)).
Proof. vm_compute. reflexivity. Defined.

Lemma zoneAnswer_mixedWorld : zoneAnswer v1 "example.org." mixedWorld mixedZone.
Proof. unfold zoneAnswer. do 3 eexists. repeat split; reflexivity. Defined.

Lemma RecordExists_iff_witness :
  fst (RecordExists v1 "example.org." "www.example.org." "A" mixedWorld) = Ok true.
Proof.
  destruct (RecordExists_iff v1 "example.org." "www.example.org." "A" _ _ _
              ListRecords_mixedWorld) as (found & Hrun & Hiff).
  rewrite Hrun. cbn [fst]. f_equal. apply Hiff.
  eexists. split; [right; left; reflexivity | split; reflexivity].
Defined.

Lemma RecordExists_agrees_with_filter_witness :
  exists found records,
    fst (RecordExists v1 "example.org." "example.org." "MX" mixedWorld) = Ok found
    /\ fst (ListRecordsByNameAndType v1 "example.org." "example.org." "MX" mixedWorld)
       = Ok (Some records)
    /\ (found = true <-> records <> []).
Proof.
  destruct (RecordExists_agrees_with_filter v1 "example.org." "example.org." "MX"
              _ _ _ ListRecords_mixedWorld)
    as (found & records & Hf & Hr & Hiff).
  exists found, records. rewrite Hf, Hr. auto.
Defined.

Lemma byID_rejects_malformed_witness :
  ListRecordsByID v1 "example.org." "www.example.org.:A" mixedWorld
  = (Err "Unknown record ID format", mixedWorld)
  /\ DeleteRecordSetByID v1 "example.org." "a:::b:::c" mixedWorld
     = (Err "Unknown record ID format", mixedWorld).
Proof.
  destruct (byID_rejects_malformed v1 "example.org." "www.example.org.:A"
              mixedWorld "Unknown record ID format" eq_refl)
    as (_ & Hl & _ & _).
  destruct (byID_rejects_malformed v1 "example.org." "a:::b:::c"
              mixedWorld "Unknown record ID format" eq_refl)
    as (_ & _ & _ & Hd).
  split; assumption.
Defined.

Lemma byID_delegates_witness :
  ListRecordsByID v1 "example.org." "www.example.org.:::A" mixedWorld
  = ListRecordsByNameAndType v1 "example.org." "www.example.org." "A" mixedWorld.
Proof.
  apply (byID_delegates v1 "example.org." "www.example.org." "A" mixedWorld);
    solve [reflexivity | discriminate].
Defined.

Lemma ID_injective_witness :
  let twin := {| rName := "old.example.org."; rType := "A";
                 rContent := "198.51.100.1"; rTTL := 60; rDisabled := true |} in
  rName legacyA = rName twin /\ rType legacyA = rType twin.
Proof.
  intros twin.
  assert (Hl : lastByte (rName legacyA) <> Some ":"%char) by discriminate.
  assert (Ht : lastByte (rName twin) <> Some ":"%char) by discriminate.
  destruct (ID_injective legacyA twin wwwSet eq_refl Hl eq_refl) as (Hrec & _).
  exact (Hrec eq_refl Ht eq_refl eq_refl).
Defined.

Lemma newRequest_headers_witness :
  http.Method zoneRequest = "GET"
  /\ http.Body zoneRequest = None
  /\ ("GET" = "GET" ->
      http.Header zoneRequest
      = [("X-API-Key", "changeme"); ("Accept", "application/json")])
  /\ ("GET" <> "GET" ->
      http.Header zoneRequest
      = [("X-API-Key", "changeme"); ("Accept", "application/json");
         ("Content-Type", "application/json")]).
Proof.
  exact (newRequest_headers v1 "GET" (zoneEndpoint "example.org.") None
           zoneRequest zoneRequest_built).
Defined.

Lemma ReplaceRecordSet_contract_witness :
  wire (snd (ReplaceRecordSet v1 "example.org." wwwSet (world [answer 204 EmptyString])))
  = [patch "rrsets: REPLACE www.example.org. A [192.0.2.7, 192.0.2.8]"]
  /\ fst (ReplaceRecordSet v1 "example.org." wwwSet (world [answer 204 EmptyString]))
     = Ok "www.example.org.:::A".
Proof.
  assert (Hreq : newRequest v1 "PATCH" (zoneEndpoint "example.org.")
                   (Some (Marshal
                            {| RecordSets := Some [set_ChangeType wwwSet "REPLACE"] |}))
                 = Ok (patch "rrsets: REPLACE www.example.org. A [192.0.2.7, 192.0.2.8]"))
    by (vm_compute; reflexivity).
  destruct (ReplaceRecordSet_contract v1 "example.org." wwwSet
              (world [answer 204 EmptyString]) _ Hreq)
    as (_ & Hwire & _ & Hout).
  split; [exact Hwire|].
  apply (Hout {| http.StatusCode := 204; http.RespBody := EmptyString |} []);
    [reflexivity | now right].
Defined.

Lemma DeleteRecordSet_outcomes_witness :
  fst (DeleteRecordSet v1 "example.org." "www.example.org." "A"
         (world [answer 204 "not read"])) = Ok tt.
Proof.
  assert (Hreq : newRequest v1 "PATCH" (zoneEndpoint "example.org.")
                   (Some (Marshal (deletePatch "www.example.org." "A")))
                 = Ok (patch "rrsets: DELETE www.example.org. A []"))
    by (vm_compute; reflexivity).
  destruct (DeleteRecordSet_outcomes v1 "example.org." "www.example.org." "A"
              (world [answer 204 "not read"]) _
              {| http.StatusCode := 204; http.RespBody := "not read" |} []
              Hreq eq_refl) as (Hok & _).
  apply Hok. now right.
Defined.

Lemma listings_ignore_status_witness :
  fst (ListRecords v1 "example.org." (world [answer 200 "zone:bare"]))
  = fst (ListRecords v1 "example.org." (world [answer 404 "zone:bare"; answer 200 "[]"])).
Proof.
  assert (Hl : newRequest v1 "GET" "/servers/localhost/zones" None
               = Ok {| http.Method := "GET";
                       http.URL := "http://10.44.17.104:8100/api/v1/servers/localhost/zones";
                       http.Header := [("X-API-Key", "changeme");
                                       ("Accept", "application/json")];
                       http.Body := None |})
    by (vm_compute; reflexivity).
  destruct (listings_ignore_status v1 "example.org."
              (world [answer 200 "zone:bare"])
              (world [answer 404 "zone:bare"; answer 200 "[]"])
              _ _
              {| http.StatusCode := 200; http.RespBody := "zone:bare" |}
              {| http.StatusCode := 404; http.RespBody := "zone:bare" |}
              [] [answer 200 "[]"]
              zoneRequest_built Hl eq_refl) as (Hzone & _).
  exact (proj1 (Hzone eq_refl eq_refl)).
Defined.

Lemma listings_hand_on_decode_error_witness :
  fst (ListRecords v1 "example.org." (world [answer 200 "<html>"]))
  = Err "invalid character looking for beginning of value".
Proof.
  assert (Hdec : Decode_ZoneInfo "<html>"
                 = inr "invalid character looking for beginning of value")
    by (vm_compute; reflexivity).
  destruct (listings_hand_on_decode_error v1 "example.org."
              (world [answer 200 "<html>"]) _
              {| http.StatusCode := 200; http.RespBody := "<html>" |} []
              "invalid character looking for beginning of value"
              zoneRequest_built eq_refl Hdec) as (Hl & _).
  exact Hl.
Defined.

Lemma ListRecords_flattens_ListRecordsAsRRSet_witness :
  exists records rrsets,
    fst (ListRecords v1 "example.org." mixedWorld) = Ok records
    /\ fst (ListRecordsAsRRSet v1 "example.org." mixedWorld) = Ok rrsets
    /\ snd (ListRecords v1 "example.org." mixedWorld)
       = snd (ListRecordsAsRRSet v1 "example.org." mixedWorld)
    /\ elems records
       = (legacyA
          :: flat_map (fun rrs => map (fun m => flat (rrs, m))
                                      (elems (rrsRecords rrs)))
               (elems rrsets))%list.
Proof.
  exact (ListRecords_flattens_ListRecordsAsRRSet v1 "example.org." mixedWorld
           mixedZone zoneAnswer_mixedWorld).
Defined.

Lemma synthesized_share_set_ID_witness :
  exists records,
    fst (ListRecords v1 "example.org." mixedWorld) = Ok records
    /\ Forall2 (fun sm r => Record_ID r = ResourceRecordSet_ID (fst sm))
         (members mixedZone) (skipn 1 (elems records)).
Proof.
  exact (synthesized_share_set_ID v1 "example.org." mixedWorld mixedZone
           zoneAnswer_mixedWorld).
Defined.

Lemma NewClient_run_401 :
  NewClient "http://10.44.17.104:8100/api/v1" "changeme"
    (world [answer 401 "Unauthorized"])
  = (Ok v0, snd (NewClient "http://10.44.17.104:8100/api/v1" "changeme"
                   (world [answer 401 "Unauthorized"]))).
Proof. vm_compute. reflexivity. Defined.

Lemma NewClient_invariants_witness :
  (apiVersion v0 = 0%Z \/ apiVersion v0 = 1%Z)
  /\ apiKey v0 = "changeme"
  /\ exists request,
       wire (snd (NewClient "http://10.44.17.104:8100/api/v1" "changeme"
                    (world [answer 401 "Unauthorized"])))
       = [request]
       /\ http.Method request = "GET"
       /\ http.Body request = None
       /\ http.Header request
          = [("X-API-Key", "changeme"); ("Accept", "application/json")].
Proof.
  exact (NewClient_invariants _ _ _ _ _ NewClient_run_401).
Defined.


(** The transport fails: the script of the server is over. *)
Example ListZones_refused :
  ListZones v1 (world [])
  = (Err "connection refused",
     @Build_World nethttp
       [ {| http.Method := "GET";
            http.URL := "http://10.44.17.104:8100/api/v1/servers/localhost/zones";
            http.Header := [("X-API-Key", "changeme"); ("Accept", "application/json")];
            http.Body := None |} ] []).
Proof. reflexivity. Qed.

(** A probe answered with 401 gives a client of version 0. *)
Example NewClient_unauthorized :
  fst (NewClient "http://10.44.17.104:8100/api/v1" "changeme"
         (world [answer 401 "Unauthorized"])) = Ok v0.
Proof. reflexivity. Qed.

End MoreRuns.

(* ================================================================= *)
(** ** Clients that [NewClient] returns do not panic *)

Section NoPanic.

Context {U : UnicodeTables} {N : NetURL} {H : NetHTTP} {J : EncodingJSON}.

Lemma calm_ret {A : Type} (a : A) : neverPanics (ret a).
Proof. intros w; discriminate. Qed.

Lemma calm_fail {A : Type} (e : error) : neverPanics (@fail _ A e).
Proof. intros w; discriminate. Qed.

Lemma calm_try {A : Type} (r : A + error) : neverPanics (try r).
Proof. destruct r; intros w; discriminate. Qed.

Lemma calm_lift {A : Type} (r : result A) : r <> Panic -> neverPanics (lift r).
Proof. intros Hr w; exact Hr. Qed.

Lemma calm_Do (req : http.Request) : neverPanics (Do req).
Proof.
  intros w. unfold Do.
  destruct (roundTrip req (server w)) as [[resp|e] sv]; discriminate.
Qed.

Lemma calm_bind {A B : Type} (c : M A) (k : A -> M B) :
  neverPanics c -> (forall a, neverPanics (k a)) -> neverPanics (bind c k).
Proof.
  intros Hc Hk w. unfold bind. specialize (Hc w).
  destruct (c w) as [[a|e|] w1]; cbn [fst] in *;
    [apply Hk | discriminate | contradiction].
Qed.

Lemma parseID_calm (recID : string) : parseID recID <> Panic.
Proof.
  destruct (parseID_Ok_or_Err recID) as [(n & t & ->) | ->]; discriminate.
Qed.

(** What a successful [NewClient] went through. *)
Lemma NewClient_Ok_inv (rawURL key : string) (w w' : World) (client : Client) :
  NewClient rawURL key w = (Ok client, w') ->
  exists u probe v,
    url_Parse rawURL = inl u
    /\ newRequest (unprobed u key) "GET" "/api/v1/servers" None = Ok probe
    /\ client = set_apiVersion (unprobed u key) v.
Proof.
  intros Hc. destruct (url_Parse rawURL) as [u|e] eqn:Hu.
  - rewrite (NewClient_unfold _ _ _ _ Hu) in Hc. unfold bind in Hc.
    destruct (newRequest (unprobed u key) "GET" "/api/v1/servers" None)
      as [probe|e|] eqn:Hp.
    + rewrite (detectapiVersion_run _ _ _ Hp) in Hc.
      destruct (roundTrip probe (server w)) as [[resp|e] sv];
        [|discriminate].
      unfold ret in Hc. inversion Hc.
      exists u, probe, (if (http.StatusCode resp =? 200)%Z then 1%Z else 0%Z).
      auto.
    + unfold detectapiVersion, bind, lift in Hc. rewrite Hp in Hc. discriminate.
    + unfold detectapiVersion, bind, lift in Hc. rewrite Hp in Hc. discriminate.
  - unfold NewClient, bind, try in Hc. rewrite Hu in Hc. discriminate.
Qed.

Ltac calm :=
  repeat first
    [ apply calm_ret | apply calm_fail | apply calm_try | apply calm_Do
    | apply parseID_calm
    | apply calm_lift
    | apply calm_bind; [|intro]
    | match goal with
      | |- neverPanics (if ?c then _ else _) => destruct c
      | |- neverPanics (match ?x with _ => _ end) => destruct x
      end ].

(** The server URL of a client that [NewClient] returned parses, because
    the probe was built from it: [newRequest] never panics on such a client,
    and no method of it ends in a panic, whatever the arguments and the
    world. *)
Theorem clients_never_panic (rawURL key : string) (w w' : World)
  (client : Client) :
  NewClient rawURL key w = (Ok client, w') ->
  (forall method endpoint body,
      newRequest client method endpoint body <> Panic)
  /\ forall (zone name tpe recID : string) (record : RecordT)
       (rrSet : ResourceRecordSet),
      neverPanics (ListZones client)
      /\ neverPanics (ListRecords client zone)
      /\ neverPanics (ListRecordsAsRRSet client zone)
      /\ neverPanics (ListRecordsByNameAndType client zone name tpe)
      /\ neverPanics (ListRecordsByID client zone recID)
      /\ neverPanics (RecordExists client zone name tpe)
      /\ neverPanics (RecordExistsByID client zone recID)
      /\ neverPanics (CreateRecord client zone record)
      /\ neverPanics (ReplaceRecordSet client zone rrSet)
      /\ neverPanics (DeleteRecordSet client zone name tpe)
      /\ neverPanics (DeleteRecordSetByID client zone recID).
Proof.
  intros Hc.
  destruct (NewClient_Ok_inv _ _ _ _ _ Hc) as (u & probe & v & Hu & Hp & ->).
  destruct (newRequest_Ok _ _ _ _ _ Hp) as (_ & _ & u' & Hu' & _).
  unfold requestURL in Hu'.
  destruct (url_Parse (serverURL (unprobed u key))) as [ub|] eqn:Hub;
    [clear Hu' | discriminate].
  assert (Hnr : forall method endpoint body,
             newRequest (set_apiVersion (unprobed u key) v) method endpoint body
             <> Panic).
  { intros method endpoint body. unfold newRequest.
    rewrite (requestURL_parsed (set_apiVersion (unprobed u key) v) endpoint ub Hub).
    destruct (NewRequest_error method _); [discriminate|].
    destruct (negb (method =? "GET")%string); discriminate. }
  split; [exact Hnr|].
  intros zone name tpe recID record rrSet.
  unfold ListRecordsByID, RecordExistsByID, DeleteRecordSetByID,
    ListRecordsByNameAndType, RecordExists, ListZones, ListRecords,
    ListRecordsAsRRSet, CreateRecord, ReplaceRecordSet, DeleteRecordSet.
  cbv zeta. repeat split; calm; apply Hnr.
Qed.

End NoPanic.

Section NoPanicRun.
Import Fixture.

#[local] Existing Instance tables.
#[local] Existing Instance neturl.
#[local] Existing Instance nethttp.
#[local] Existing Instance json.

Lemma clients_never_panic_witness :
  (forall method endpoint body, newRequest v0 method endpoint body <> Panic)
  /\ forall (zone name tpe recID : string) (record : RecordT)
       (rrSet : ResourceRecordSet),
      neverPanics (ListZones v0)
      /\ neverPanics (ListRecords v0 zone)
      /\ neverPanics (ListRecordsAsRRSet v0 zone)
      /\ neverPanics (ListRecordsByNameAndType v0 zone name tpe)
      /\ neverPanics (ListRecordsByID v0 zone recID)
      /\ neverPanics (RecordExists v0 zone name tpe)
      /\ neverPanics (RecordExistsByID v0 zone recID)
      /\ neverPanics (CreateRecord v0 zone record)
      /\ neverPanics (ReplaceRecordSet v0 zone rrSet)
      /\ neverPanics (DeleteRecordSet v0 zone name tpe)
      /\ neverPanics (DeleteRecordSetByID v0 zone recID).
Proof.
  exact (clients_never_panic _ _ _ _ _ NewClient_run_401).
Defined.

End NoPanicRun.
